(** * SolidBrushVertex.h: the vertex layout shared with the Metal shaders

    The header declares three type aliases, one struct under
    [#pragma pack(push, 4)] and a [static_assert] on its size.  It has no
    functions: what it fixes is a byte layout.  This development embeds the
    declarations as type descriptions, gives them the record layout rules of
    the C ABI (members in declaration order, each at the next multiple of its
    alignment, alignments capped by the packing in effect, size rounded up to
    the record's alignment) and checks the header's size assertion and the
    offsets, widths and padding that follow from it. *)

From Stdlib Require Import Init.Byte.
From stdpp Require Import base numbers option list strings gmap.

Local Open Scope string_scope.
Local Open Scope nat_scope.

(** ** Platforms and C types *)

(** The two arithmetic types the header uses: [float] and [_Float16]. *)
Inductive scalar : Set := Float32 | Float16.

(** What a compiler target fixes: size and alignment of the scalars. *)
Record platform : Set := Platform {
  scalar_size : scalar -> nat;
  scalar_align : scalar -> nat
}.

(** Table of the Metal Shading Language specification and of the Apple
    targets: [float] is 4 bytes aligned to 4, [half] 2 bytes aligned to 2. *)
Definition msl_scalar_size (s : scalar) : nat :=
  match s with Float32 => 4 | Float16 => 2 end.

Definition apple_arm64 : platform :=
  {| scalar_size := msl_scalar_size; scalar_align := msl_scalar_size |}.

Definition msl_scalars (P : platform) : Prop :=
  scalar_size P Float32 = 4 /\ scalar_align P Float32 = 4 /\
  scalar_size P Float16 = 2 /\ scalar_align P Float16 = 2.

(** C types as the header writes them.  A struct records the packing in
    effect where it is declared and its members, name and type, in order. *)
#[warnings="-register-all"]
Inductive ctype : Set :=
  | TScalar (s : scalar)
  | TVector (elt : scalar) (lanes : nat)
  | TArray (elt : ctype) (len : nat)
  | TStruct (pack : option nat) (members : list (string * ctype)).

Abbreviation member := (string * ctype)%type.

(** Induction over a type and, for a struct, over the types of its members. *)
Section CtypeInduction.
Variable Q : ctype -> Prop.
Hypothesis Hscalar : forall s, Q (TScalar s).
Hypothesis Hvector : forall e n, Q (TVector e n).
Hypothesis Harray : forall e n, Q e -> Q (TArray e n).
Hypothesis Hstruct : forall pk ms, Forall (fun m => Q (snd m)) ms -> Q (TStruct pk ms).

Fixpoint ctype_induction (t : ctype) : Q t :=
  match t with
  | TScalar s => Hscalar s
  | TVector e n => Hvector e n
  | TArray e n => Harray e n (ctype_induction e)
  | TStruct pk ms =>
      Hstruct pk ms
        ((fix members (ms : list member) : Forall (fun m => Q (snd m)) ms :=
            match ms with
            | [] => @ListDef.Forall_nil _ _
            | (x, t) :: ms' =>
                @ListDef.Forall_cons _ (fun m => Q (snd m)) (x, t) ms'
                  (ctype_induction t) (members ms')
            end) ms)
  end.
End CtypeInduction.

(** ** Record layout *)

(** Round [n] up to the next multiple of [a]. *)
Definition align_up (n a : nat) : nat :=
  if a =? 0 then n else ((n + a - 1) / a) * a.

(** [#pragma pack(p)] caps the alignment a member would have by itself. *)
Definition cap (pack : option nat) (a : nat) : nat :=
  match pack with
  | Some p => Nat.min p a
  | None => a
  end.

(** A vector of three lanes is stored as one of four. *)
Definition stored_lanes (lanes : nat) : nat :=
  if lanes =? 3 then 4 else lanes.

(** First binding of [x] in an association list. *)
Fixpoint assoc {A : Type} (x : string) (l : list (string * A)) : option A :=
  match l with
  | [] => None
  | (y, a) :: l' => if decide (x = y) then Some a else assoc x l'
  end.

(** One walk over the members of a record, given the size and alignment of
    the member types: each member goes to the next multiple of its capped
    alignment after the end of the one before. *)
Section Members.
Variables size align : ctype -> nat.
Variable pack : option nat.

Fixpoint members_align (ms : list member) : nat :=
  match ms with
  | [] => 1
  | (_, t) :: ms' => Nat.max (cap pack (align t)) (members_align ms')
  end.

(** Name, offset and width of each member, laid out from offset [cur]. *)
Fixpoint place (ms : list member) (cur : nat) : list (string * (nat * nat)) :=
  match ms with
  | [] => []
  | (x, t) :: ms' =>
      let o := align_up cur (cap pack (align t)) in
      (x, (o, size t)) :: place ms' (o + size t)
  end.

(** Where the last member ends. *)
Fixpoint members_end (ms : list member) (cur : nat) : nat :=
  match ms with
  | [] => cur
  | (_, t) :: ms' => members_end ms' (align_up cur (cap pack (align t)) + size t)
  end.
End Members.

Section Layout.
Variable P : platform.

Fixpoint alignof (t : ctype) : nat :=
  match t with
  | TScalar s => scalar_align P s
  | TVector e n => scalar_size P e * stored_lanes n
  | TArray e _ => alignof e
  | TStruct pack ms => members_align alignof pack ms
  end.

Fixpoint sizeof (t : ctype) : nat :=
  match t with
  | TScalar s => scalar_size P s
  | TVector e n => scalar_size P e * stored_lanes n
  | TArray e n => sizeof e * n
  | TStruct pack ms =>
      align_up (members_end sizeof alignof pack ms 0) (members_align alignof pack ms)
  end.

(** The members of a struct with their offsets and widths. *)
Definition fields (t : ctype) : list (string * (nat * nat)) :=
  match t with
  | TStruct pack ms => place sizeof alignof pack ms 0
  | _ => []
  end.

(** [offsetof(t, x)] and the width of member [x]. *)
Definition offsetof (t : ctype) (x : string) : option nat :=
  fst <$> assoc x (fields t).

Definition widthof (t : ctype) (x : string) : option nat :=
  snd <$> assoc x (fields t).

(** Byte offset of element [i] of an array of [t]: [(char * )(a + i) - (char * )a]. *)
Definition element_offset (t : ctype) (i : nat) : nat := i * sizeof t.

(** Is byte [b] of an object of type [t] inside one of its members? *)
Definition covered (t : ctype) (b : nat) : bool :=
  existsb (fun f => (fst (snd f) <=? b) && (b <? fst (snd f) + snd (snd f))) (fields t).

(** The bytes of an object of type [t] that belong to no member. *)
Definition padding_bytes (t : ctype) : list nat :=
  filter (fun b => covered t b = false) (seq 0 (sizeof t)).
End Layout.

(** Consecutive placements: each member starts where the one before ends. *)
Fixpoint no_gaps (fs : list (string * (nat * nat))) (cur : nat) : bool :=
  match fs with
  | [] => true
  | (_, (o, w)) :: fs' => (o =? cur) && no_gaps fs' (o + w)
  end.

(** The member types on which two tables of sizes and alignments agree. *)
Definition agree (size size' align align' : ctype -> nat) (m : member) : Prop :=
  size (snd m) = size' (snd m) /\ align (snd m) = align' (snd m).

(** ** The header *)

(** Modelled from the spec: [MTLPackedFloat3] is declared by the Metal SDK
    ([<metal/metal.h>]), not by this repository; the spec gives it as three
    packed 32-bit floats, 12 bytes and not rounded to 16. *)
Definition MTLPackedFloat3 : ctype :=
  TStruct None [("x", TScalar Float32); ("y", TScalar Float32); ("z", TScalar Float32)].

(** Modelled from the spec: [simd_float2] is declared by the SDK
    ([<simd/simd.h>]), not by this repository; the spec gives it as a vector
    of two floats, 8 bytes. *)
Definition simd_float2 : ctype := TVector Float32 2.

(** [typedef MTLPackedFloat3 packed_float3;] *)
Definition packed_float3 : ctype := MTLPackedFloat3.

(** [typedef simd_float2 packed_float2;] *)
Definition packed_float2 : ctype := simd_float2.

(** [typedef struct { _Float16 x, y, z; } packed_half3;] *)
Definition packed_half3 : ctype :=
  TStruct None [("x", TScalar Float16); ("y", TScalar Float16); ("z", TScalar Float16)].

(** [struct SolidBrushVertex], declared between [#pragma pack(push, 4)] and
    [#pragma pack(pop)]. *)
Definition SolidBrushVertex : ctype :=
  TStruct (Some 4)
    [("position", packed_float3);
     ("normal", packed_float3);
     ("bitangent", packed_float3);
     ("curveDistance", TScalar Float32);
     ("color", packed_half3)].

(** The struct with the member the header keeps in a comment put back:
    [packed_float2 materialProperties;] between [bitangent] and
    [curveDistance]. *)
Definition with_materialProperties (t : ctype) : ctype :=
  TStruct (Some 4)
    [("position", packed_float3);
     ("normal", packed_float3);
     ("bitangent", packed_float3);
     ("materialProperties", t);
     ("curveDistance", TScalar Float32);
     ("color", packed_half3)].

(** [static_assert(sizeof(struct SolidBrushVertex) == 48, "ensure packing");] *)
Definition static_assert_size (P : platform) : bool :=
  sizeof P SolidBrushVertex =? 48.

(** [//static_assert(sizeof(struct SolidBrushVertex) == 56, "ensure packing");] *)
Definition disabled_static_assert_size (P : platform) (t : ctype) : bool :=
  sizeof P (with_materialProperties t) =? 56.

(** ** Objects in memory *)

(** The object representation of a value of type [t] is [sizeof t] bytes;
    a member is read and written as the bytes from its offset on. *)
Definition load (m : list byte) (off len : nat) : list byte :=
  take len (drop off m).

Definition store (m : list byte) (off : nat) (v : list byte) : list byte :=
  take off m ++ v ++ drop (off + length v) m.

Section Access.
Variable P : platform.

(** [v = p->x], as bytes. *)
Definition read_field (t : ctype) (x : string) (m : list byte) : option (list byte) :=
  match assoc x (fields P t) with
  | Some (o, w) => if decide (o + w <= length m) then Some (load m o w) else None
  | None => None
  end.

(** [p->x = v], as bytes. *)
Definition write_field (t : ctype) (x : string) (v m : list byte) : option (list byte) :=
  match assoc x (fields P t) with
  | Some (o, w) =>
      if decide (length v = w /\ o + w <= length m) then Some (store m o v) else None
  | None => None
  end.
End Access.

(** ** The translation unit *)

(** A type as a declaration names it: by identifier, or as an anonymous
    struct body, members written type first as in C. *)
Inductive typespec : Set :=
  | Named (name : string)
  | AnonStruct (members : list (string * string)).

(** The top-level items of a header.  [FunctionDef] is the one item that
    would put code into the program. *)
Inductive item : Set :=
  | PragmaOnce
  | Include (header : string)
  | Typedef (spec : typespec) (name : string)
  | PragmaPackPush (n : nat)
  | PragmaPackPop
  | StructDef (tag : string) (members : list (string * string))
  | StaticAssertSizeof (tag : string) (size : nat) (msg : string)
  | FunctionDef (name : string).

Inductive build_error : Set :=
  | UnknownHeader (header : string)
  | UnknownType (name : string)
  | StaticAssertFailed (msg : string).

(** What the compiler knows while it reads the unit: type names, struct
    tags, the packing in effect with the stack of saved packings, and the
    functions it has emitted code for. *)
Record unit_state : Type := UnitState {
  types : gmap string ctype;
  tags : gmap string ctype;
  pack : option nat;
  pack_stack : list (option nat);
  code : list string
}.

Definition result (A : Type) : Type := build_error + A.

Definition bind {A B : Type} (r : result A) (k : A -> result B) : result B :=
  match r with
  | inl e => inl e
  | inr a => k a
  end.

Notation "x <-- r ;; k" := (bind r (fun x => k))
  (at level 100, r at next level, right associativity).

Definition initial_state : unit_state :=
  {| types := <["float" := TScalar Float32]> (<["_Float16" := TScalar Float16]> ∅);
     tags := ∅; pack := None; pack_stack := []; code := [] |}.

(** Modelled from the spec: the two SDK headers are not part of the
    repository; each is taken to declare the one type the header uses. *)
Definition sdk (header : string) : option (string * ctype) :=
  if decide (header = "metal/metal.h") then Some ("MTLPackedFloat3", MTLPackedFloat3)
  else if decide (header = "simd/simd.h") then Some ("simd_float2", simd_float2)
  else None.

Definition resolve (env : gmap string ctype) (name : string) : result ctype :=
  match env !! name with
  | Some t => inr t
  | None => inl (UnknownType name)
  end.

Fixpoint resolve_members (env : gmap string ctype) (ms : list (string * string))
  : result (list member) :=
  match ms with
  | [] => inr []
  | (ty, x) :: ms' =>
      t <-- resolve env ty ;;
      rest <-- resolve_members env ms' ;;
      inr ((x, t) :: rest)
  end.

Definition elaborate (s : unit_state) (spec : typespec) : result ctype :=
  match spec with
  | Named name => resolve (types s) name
  | AnonStruct ms =>
      ms' <-- resolve_members (types s) ms ;;
      inr (TStruct (pack s) ms')
  end.

Section Build.
Variable P : platform.

Definition step (s : unit_state) (i : item) : result unit_state :=
  match i with
  | PragmaOnce => inr s
  | Include h =>
      match sdk h with
      | Some (name, t) =>
          inr {| types := <[name := t]> (types s); tags := tags s; pack := pack s;
                 pack_stack := pack_stack s; code := code s |}
      | None => inl (UnknownHeader h)
      end
  | Typedef spec name =>
      t <-- elaborate s spec ;;
      inr {| types := <[name := t]> (types s); tags := tags s; pack := pack s;
             pack_stack := pack_stack s; code := code s |}
  | PragmaPackPush n =>
      inr {| types := types s; tags := tags s; pack := Some n;
             pack_stack := pack s :: pack_stack s; code := code s |}
  | PragmaPackPop =>
      match pack_stack s with
      | saved :: rest =>
          inr {| types := types s; tags := tags s; pack := saved;
                 pack_stack := rest; code := code s |}
      | [] => inr s
      end
  | StructDef tag ms =>
      t <-- elaborate s (AnonStruct ms) ;;
      inr {| types := types s; tags := <[tag := t]> (tags s); pack := pack s;
             pack_stack := pack_stack s; code := code s |}
  | StaticAssertSizeof tag n msg =>
      t <-- resolve (tags s) tag ;;
      if sizeof P t =? n then inr s else inl (StaticAssertFailed msg)
  | FunctionDef name =>
      inr {| types := types s; tags := tags s; pack := pack s;
             pack_stack := pack_stack s; code := name :: code s |}
  end.

Fixpoint build_from (s : unit_state) (items : list item) : result unit_state :=
  match items with
  | [] => inr s
  | i :: items' => s' <-- step s i ;; build_from s' items'
  end.

Definition build (items : list item) : result unit_state :=
  build_from initial_state items.
End Build.

Definition emits_code (i : item) : bool :=
  match i with
  | FunctionDef _ => true
  | _ => false
  end.

(** The header, item by item. *)
Definition SolidBrushVertex_h : list item :=
  [ PragmaOnce;
    Include "metal/metal.h";
    Include "simd/simd.h";
    Typedef (Named "MTLPackedFloat3") "packed_float3";
    Typedef (Named "simd_float2") "packed_float2";
    Typedef (AnonStruct [("_Float16", "x"); ("_Float16", "y"); ("_Float16", "z")])
      "packed_half3";
    PragmaPackPush 4;
    StructDef "SolidBrushVertex"
      [("packed_float3", "position");
       ("packed_float3", "normal");
       ("packed_float3", "bitangent");
       ("float", "curveDistance");
       ("packed_half3", "color")];
    PragmaPackPop;
    StaticAssertSizeof "SolidBrushVertex" 48 "ensure packing" ].

(** The header with its two commented-out lines switched on and the
    48-byte assertion switched off. *)
Definition SolidBrushVertex_h_with_materialProperties : list item :=
  [ PragmaOnce;
    Include "metal/metal.h";
    Include "simd/simd.h";
    Typedef (Named "MTLPackedFloat3") "packed_float3";
    Typedef (Named "simd_float2") "packed_float2";
    Typedef (AnonStruct [("_Float16", "x"); ("_Float16", "y"); ("_Float16", "z")])
      "packed_half3";
    PragmaPackPush 4;
    StructDef "SolidBrushVertex"
      [("packed_float3", "position");
       ("packed_float3", "normal");
       ("packed_float3", "bitangent");
       ("packed_float2", "materialProperties");
       ("float", "curveDistance");
       ("packed_half3", "color")];
    PragmaPackPop;
    StaticAssertSizeof "SolidBrushVertex" 56 "ensure packing" ].

(** What the compiler knows at the end of the header. *)
Definition header_state : unit_state :=
  {| types :=
       <["packed_half3" := packed_half3]>
         (<["packed_float2" := packed_float2]>
            (<["packed_float3" := packed_float3]>
               (<["simd_float2" := simd_float2]>
                  (<["MTLPackedFloat3" := MTLPackedFloat3]> (types initial_state)))));
     tags := <["SolidBrushVertex" := SolidBrushVertex]> ∅;
     pack := None; pack_stack := []; code := [] |}.

(** What the compiler knows at the end of the header that has
    [materialProperties]. *)
Definition header_state_with_materialProperties : unit_state :=
  {| types := types header_state;
     tags := <["SolidBrushVertex" := with_materialProperties packed_float2]> ∅;
     pack := None; pack_stack := []; code := [] |}.

(** ** The struct in other contexts *)

(** [struct SolidBrushVertex] as the header writes it, leaving open what the
    header does not fix by itself: the packing [pk] in effect, the type [T]
    that [packed_float3] names and the type [H3] that [packed_half3] names. *)
Definition SolidBrushVertex_over (pk : option nat) (T H3 : ctype) : ctype :=
  TStruct pk
    [("position", T);
     ("normal", T);
     ("bitangent", T);
     ("curveDistance", TScalar Float32);
     ("color", H3)].

(** [typedef struct { _Float16 x, y, z; } packed_half3;] read with packing
    [p] in effect: the alias is declared before the header's own directive. *)
Definition packed_half3_under (p : option nat) : ctype :=
  TStruct p [("x", TScalar Float16); ("y", TScalar Float16); ("z", TScalar Float16)].

(** The compiler's state when a file that has packing [p] in effect, and
    [st] saved below it, includes the header. *)
Definition included_from (p : option nat) (st : list (option nat)) : unit_state :=
  {| types := types initial_state; tags := ∅; pack := p; pack_stack := st; code := [] |}.

(** What the compiler knows at the end of the header when the includer had
    packing [p] in effect and [st] saved. *)
Definition header_state_from (p : option nat) (st : list (option nat)) : unit_state :=
  {| types :=
       <["packed_half3" := packed_half3_under p]>
         (<["packed_float2" := packed_float2]>
            (<["packed_float3" := packed_float3]>
               (<["simd_float2" := simd_float2]>
                  (<["MTLPackedFloat3" := MTLPackedFloat3]> (types initial_state)))));
     tags :=
       <["SolidBrushVertex" :=
           SolidBrushVertex_over (Some 4) packed_float3 (packed_half3_under p)]> ∅;
     pack := p; pack_stack := st; code := [] |}.

(** The header with [n] for the 4 of its packing directive. *)
Definition SolidBrushVertex_h_packed (n : nat) : list item :=
  [ PragmaOnce;
    Include "metal/metal.h";
    Include "simd/simd.h";
    Typedef (Named "MTLPackedFloat3") "packed_float3";
    Typedef (Named "simd_float2") "packed_float2";
    Typedef (AnonStruct [("_Float16", "x"); ("_Float16", "y"); ("_Float16", "z")])
      "packed_half3";
    PragmaPackPush n;
    StructDef "SolidBrushVertex"
      [("packed_float3", "position");
       ("packed_float3", "normal");
       ("packed_float3", "bitangent");
       ("float", "curveDistance");
       ("packed_half3", "color")];
    PragmaPackPop;
    StaticAssertSizeof "SolidBrushVertex" 48 "ensure packing" ].

(** What the compiler knows at the end of the header whose directive packs
    to [n]. *)
Definition header_state_packed (n : nat) : unit_state :=
  {| types := types header_state;
     tags :=
       <["SolidBrushVertex" := SolidBrushVertex_over (Some n) packed_float3 packed_half3]> ∅;
     pack := None; pack_stack := []; code := [] |}.

(** The struct with [materialProperties] put back and the packing
    directive taken away. *)
Definition with_materialProperties_no_pack (t : ctype) : ctype :=
  TStruct None
    [("position", packed_float3);
     ("normal", packed_float3);
     ("bitangent", packed_float3);
     ("materialProperties", t);
     ("curveDistance", TScalar Float32);
     ("color", packed_half3)].

(** The declared members of a struct. *)
Definition struct_members (t : ctype) : list member :=
  match t with
  | TStruct _ ms => ms
  | _ => []
  end.

(** [p->x = v] for each [(x, v)] of a list, in order. *)
Fixpoint write_fields (P : platform) (t : ctype) (vs : list (string * list byte))
  (m : list byte) : option (list byte) :=
  match vs with
  | [] => Some m
  | (x, v) :: vs' =>
      match write_field P t x v m with
      | Some m' => write_fields P t vs' m'
      | None => None
      end
  end.

(** ** The scalars of an object *)

(** A scalar inside an object: its offset and its type. *)
Definition shift (c : nat) (l : nat * scalar) : nat * scalar := (c + fst l, snd l).

Section MembersScalars.
Variables size align : ctype -> nat.
Variable scalars_of : ctype -> list (nat * scalar).
Variable pk : option nat.

(** The scalars of the members of a struct laid out from [cur]. *)
Fixpoint members_scalars (ms : list member) (cur : nat) : list (nat * scalar) :=
  match ms with
  | [] => []
  | (_, t) :: ms' =>
      let o := align_up cur (cap pk (align t)) in
      map (shift o) (scalars_of t) ++ members_scalars ms' (o + size t)
  end.
End MembersScalars.

Section Scalars.
Variable P : platform.

(** Every scalar an object of type [t] is made of, with its offset from the
    start of the object: the lanes of a vector, the elements of an array and
    the members of a struct, down to [float] and [_Float16]. *)
Fixpoint scalars (t : ctype) : list (nat * scalar) :=
  match t with
  | TScalar s => [(0, s)]
  | TVector e n => map (fun k => (k * scalar_size P e, e)) (seq 0 n)
  | TArray e n =>
      flat_map (fun k => map (shift (k * sizeof P e)) (scalars e)) (seq 0 n)
  | TStruct pk ms => members_scalars (sizeof P) (alignof P) scalars pk ms 0
  end.
End Scalars.

(** ** Arrays of objects in memory *)

Section ElementAccess.
Variable P : platform.

(** [v = a[i].x], as bytes, for an array [a] of [t] held in [m]. *)
Definition read_element_field (t : ctype) (i : nat) (x : string) (m : list byte)
  : option (list byte) :=
  match assoc x (fields P t) with
  | Some (o, w) =>
      if decide (element_offset P t i + o + w <= length m)
      then Some (load m (element_offset P t i + o) w) else None
  | None => None
  end.

(** [a[i].x = v], as bytes. *)
Definition write_element_field (t : ctype) (i : nat) (x : string) (v m : list byte)
  : option (list byte) :=
  match assoc x (fields P t) with
  | Some (o, w) =>
      if decide (length v = w /\ element_offset P t i + o + w <= length m)
      then Some (store m (element_offset P t i + o) v) else None
  | None => None
  end.
End ElementAccess.

(** * Properties *)

(** ** Rounding up *)

Lemma align_up_ge n a : n <= align_up n a.
Proof.
  unfold align_up. destruct (Nat.eqb_spec a 0) as [|Ha]; [lia|].
  pose proof (Nat.div_mod_eq (n + a - 1) a) as Hd.
  pose proof (Nat.mod_upper_bound (n + a - 1) a Ha) as Hm.
  nia.
Qed.

Lemma align_up_multiple n a : a <> 0 -> n mod a = 0 -> align_up n a = n.
Proof.
  intros Ha Hn. unfold align_up. destruct (Nat.eqb_spec a 0) as [|_]; [lia|].
  apply Nat.Div0.div_exact in Hn.
  rewrite Hn at 1.
  replace (a * (n / a) + a - 1) with ((a - 1) + (n / a) * a) by lia.
  rewrite Nat.div_add by lia. rewrite Nat.div_small by lia. lia.
Qed.

Lemma align_up_aligned n a : a <> 0 -> align_up n a mod a = 0.
Proof.
  intros Ha. unfold align_up. destruct (Nat.eqb_spec a 0) as [|_]; [lia|].
  apply Nat.Div0.mod_mul.
Qed.

(** ** The walk over the members *)

Section MembersFacts.
Variables size align : ctype -> nat.
Variable pk : option nat.

Lemma members_align_pos ms : 1 <= members_align align pk ms.
Proof. induction ms as [|[x t] ms IH]; simpl; lia. Qed.

Lemma members_end_ge ms cur : cur <= members_end size align pk ms cur.
Proof.
  revert cur. induction ms as [|[x t] ms IH]; intros cur; simpl; [lia|].
  pose proof (align_up_ge cur (cap pk (align t))).
  specialize (IH (align_up cur (cap pk (align t)) + size t)). lia.
Qed.

(** A member lies after the start of the walk and before its end. *)
Lemma place_bounds ms cur x o w :
  assoc x (place size align pk ms cur) = Some (o, w) ->
  cur <= o /\ o + w <= members_end size align pk ms cur.
Proof.
  revert cur. induction ms as [|[y t] ms IH]; intros cur; simpl; [discriminate|].
  pose proof (align_up_ge cur (cap pk (align t))) as Hge.
  destruct (decide (x = y)) as [->|Hne].
  - intros [= <- <-]. split; [lia|]. apply members_end_ge.
  - intros H. apply IH in H. lia.
Qed.

(** Two members of different names never share a byte. *)
Lemma place_disjoint ms cur x y o w o' w' :
  x <> y ->
  assoc x (place size align pk ms cur) = Some (o, w) ->
  assoc y (place size align pk ms cur) = Some (o', w') ->
  o + w <= o' \/ o' + w' <= o.
Proof.
  intros Hxy. revert cur.
  induction ms as [|[z t] ms IH]; intros cur; simpl; [discriminate|].
  destruct (decide (x = z)) as [->|Hx], (decide (y = z)) as [->|Hy];
    try congruence.
  - intros [= <- <-] H. apply place_bounds in H. lia.
  - intros H [= <- <-]. apply place_bounds in H. lia.
  - apply IH.
Qed.
End MembersFacts.

Lemma sizeof_struct P pk ms :
  sizeof P (TStruct pk ms) =
  align_up (members_end (sizeof P) (alignof P) pk ms 0) (alignof P (TStruct pk ms)).
Proof. reflexivity. Qed.

(** The size of a struct is a multiple of its alignment, so that the
    elements of an array of it are all aligned. *)
Lemma sizeof_struct_aligned P pk ms :
  sizeof P (TStruct pk ms) mod alignof P (TStruct pk ms) = 0.
Proof.
  rewrite sizeof_struct. apply align_up_aligned.
  pose proof (members_align_pos (alignof P) pk ms). simpl. lia.
Qed.

(** Every member of a struct lies inside the struct. *)
Lemma field_in_object P t x o w :
  assoc x (fields P t) = Some (o, w) -> o + w <= sizeof P t.
Proof.
  destruct t as [s|e n|e n|pk ms]; simpl; try discriminate.
  intros H. apply place_bounds in H.
  pose proof (align_up_ge (members_end (sizeof P) (alignof P) pk ms 0)
                (members_align (alignof P) pk ms)).
  lia.
Qed.

Lemma fields_disjoint P t x y o w o' w' :
  x <> y ->
  assoc x (fields P t) = Some (o, w) ->
  assoc y (fields P t) = Some (o', w') ->
  o + w <= o' \/ o' + w' <= o.
Proof.
  destruct t as [s|e n|e n|pk ms]; simpl; try discriminate.
  apply place_disjoint.
Qed.

(** ** Loads and stores *)

Lemma length_store m off v :
  off + length v <= length m -> length (store m off v) = length m.
Proof.
  intros H. unfold store.
  rewrite !length_app, length_take, length_drop. lia.
Qed.

Lemma load_store_same m off v :
  off <= length m -> load (store m off v) off (length v) = v.
Proof.
  intros H. unfold load, store.
  rewrite drop_app_length' by (rewrite length_take; lia).
  apply take_app_length.
Qed.

Lemma load_store_before m off v o w :
  off + length v <= length m -> o + w <= off ->
  load (store m off v) o w = load m o w.
Proof.
  intros Hin Hd. unfold load, store.
  rewrite drop_app_le by (rewrite length_take; lia).
  rewrite take_app_le by (rewrite length_drop, length_take; lia).
  replace off with (o + (off - o)) at 1 by lia.
  rewrite <- take_drop_commute, take_take.
  f_equal. lia.
Qed.

Lemma load_store_after m off v o w :
  off + length v <= length m -> off + length v <= o ->
  load (store m off v) o w = load m o w.
Proof.
  intros Hin Hd. unfold load, store.
  rewrite app_assoc.
  rewrite drop_app_ge by (rewrite length_app, length_take; lia).
  rewrite length_app, length_take, drop_drop.
  do 2 f_equal. lia.
Qed.

Lemma load_store_other m off v o w :
  off + length v <= length m ->
  o + w <= off \/ off + length v <= o ->
  load (store m off v) o w = load m o w.
Proof.
  intros Hin [H|H]; [apply load_store_before | apply load_store_after]; assumption.
Qed.

(** Writing a member of any struct and reading it back gives the bytes
    written, and leaves what every other member reads unchanged. *)
Lemma write_read_field P t x o w m v :
  assoc x (fields P t) = Some (o, w) ->
  length m = sizeof P t ->
  length v = w ->
  exists m',
    write_field P t x v m = Some m' /\
    length m' = length m /\
    read_field P t x m' = Some v /\
    forall y, y <> x -> read_field P t y m' = read_field P t y m.
Proof.
  intros Hx Hm Hv.
  pose proof (field_in_object _ _ _ _ _ Hx) as Hin.
  exists (store m o v).
  assert (Hlen : length (store m o v) = length m) by (apply length_store; lia).
  unfold write_field, read_field. rewrite Hx, Hlen.
  split; [|split; [|split]].
  - rewrite decide_True by lia. reflexivity.
  - reflexivity.
  - rewrite decide_True by lia. subst w. rewrite load_store_same by lia. reflexivity.
  - intros y Hy. destruct (assoc y (fields P t)) as [[o' w']|] eqn:Hy'; [|reflexivity].
    destruct (decide (o' + w' <= length m)); [|reflexivity].
    rewrite load_store_other; [reflexivity|lia|].
    destruct (fields_disjoint P t x y o w o' w') as [Hd|Hd]; auto; lia.
Qed.

(** ** Layout depends on the platform through the scalar table only *)

Section MembersExt.
Variables size size' align align' : ctype -> nat.
Variable pk : option nat.

Lemma members_align_ext ms :
  Forall (agree size size' align align') ms -> members_align align pk ms = members_align align' pk ms.
Proof.
  induction 1 as [|[x t] l [_ Ha] _ IH]; simpl in *; [reflexivity|].
  rewrite Ha, IH. reflexivity.
Qed.

Lemma members_end_ext ms cur :
  Forall (agree size size' align align') ms ->
  members_end size align pk ms cur = members_end size' align' pk ms cur.
Proof.
  intros Hms. revert cur.
  induction Hms as [|[x t] l [Hs Ha] _ IH]; intros cur; simpl in *; [reflexivity|].
  rewrite Hs, Ha. apply IH.
Qed.

Lemma place_ext ms cur :
  Forall (agree size size' align align') ms -> place size align pk ms cur = place size' align' pk ms cur.
Proof.
  intros Hms. revert cur.
  induction Hms as [|[x t] l [Hs Ha] _ IH]; intros cur; simpl in *; [reflexivity|].
  rewrite Hs, Ha, IH. reflexivity.
Qed.
End MembersExt.

Section LayoutExt.
Variables P P' : platform.
Hypothesis Hsize : forall s, scalar_size P s = scalar_size P' s.
Hypothesis Halign : forall s, scalar_align P s = scalar_align P' s.

Lemma layout_ext t : sizeof P t = sizeof P' t /\ alignof P t = alignof P' t.
Proof.
  induction t as [s|e n|e n [IHs IHa]|pk ms IH] using ctype_induction; simpl.
  - auto.
  - rewrite Hsize. auto.
  - rewrite IHs. auto.
  - rewrite (members_end_ext _ _ _ _ pk ms 0 IH).
    rewrite (members_align_ext _ _ _ _ pk ms IH). auto.
Qed.

Lemma fields_ext t : fields P t = fields P' t.
Proof.
  destruct t as [s|e n|e n|pk ms]; simpl; try reflexivity.
  apply place_ext, Forall_forall. intros m _. apply layout_ext.
Qed.
End LayoutExt.

(** On a platform with the scalar table of the shading language every type
    is laid out as on [apple_arm64]. *)
Lemma msl_layout P :
  msl_scalars P ->
  forall t, sizeof P t = sizeof apple_arm64 t /\
            alignof P t = alignof apple_arm64 t /\
            fields P t = fields apple_arm64 t.
Proof.
  intros (Hf & Haf & Hh & Hah) t.
  assert (Hs : forall s, scalar_size P s = scalar_size apple_arm64 s)
    by (intros []; assumption).
  assert (Ha : forall s, scalar_align P s = scalar_align apple_arm64 s)
    by (intros []; assumption).
  destruct (layout_ext P apple_arm64 Hs Ha t) as [H1 H2].
  auto using fields_ext.
Qed.

Lemma apple_arm64_msl : msl_scalars apple_arm64.
Proof. repeat split. Qed.

(** Rewrite the layout of a platform with the shading language's scalar
    table into the layout on [apple_arm64], which computes. *)
Ltac on_msl H :=
  repeat match goal with
    | |- context [sizeof ?P ?t] =>
        lazymatch P with apple_arm64 => fail | _ => idtac end;
        rewrite (proj1 (msl_layout P H t))
    | |- context [alignof ?P ?t] =>
        lazymatch P with apple_arm64 => fail | _ => idtac end;
        rewrite (proj1 (proj2 (msl_layout P H t)))
    | |- context [fields ?P ?t] =>
        lazymatch P with apple_arm64 => fail | _ => idtac end;
        rewrite (proj2 (proj2 (msl_layout P H t)))
    end.

(** ** Reading the header *)

Lemma build_from_app P s items items' :
  build_from P s (items ++ items') =
  (s' <-- build_from P s items ;; build_from P s' items').
Proof.
  revert s. induction items as [|i items IH]; intros s; simpl; [reflexivity|].
  destruct (step P s i) as [e|s1]; simpl; [reflexivity|apply IH].
Qed.

(** A unit that ends in a size assertion builds exactly when the assertion
    holds of the struct its declarations bound to the tag. *)
Lemma build_asserted P decls s tag t n msg :
  build_from P initial_state decls = inr s ->
  tags s !! tag = Some t ->
  build P (decls ++ [StaticAssertSizeof tag n msg]) =
  if sizeof P t =? n then inr s else inl (StaticAssertFailed msg).
Proof.
  intros Hdecls Htag. unfold build.
  rewrite build_from_app, Hdecls. cbn [bind build_from step].
  unfold resolve. rewrite Htag. cbn [bind].
  destruct (sizeof P t =? n); reflexivity.
Qed.

(** The declarations of the header, up to its assertion, do not look at the
    platform. *)
Lemma header_declarations P :
  build_from P initial_state (take 9 SolidBrushVertex_h) = inr header_state.
Proof. vm_compute. reflexivity. Qed.

Lemma build_header P :
  build P SolidBrushVertex_h =
  if static_assert_size P then inr header_state
  else inl (StaticAssertFailed "ensure packing").
Proof.
  apply (build_asserted P (take 9 SolidBrushVertex_h)).
  - apply header_declarations.
  - reflexivity.
Qed.

Lemma build_header_with_materialProperties P :
  build P SolidBrushVertex_h_with_materialProperties =
  if disabled_static_assert_size P packed_float2
  then inr header_state_with_materialProperties
  else inl (StaticAssertFailed "ensure packing").
Proof.
  apply (build_asserted P (take 9 SolidBrushVertex_h_with_materialProperties)).
  - vm_compute. reflexivity.
  - reflexivity.
Qed.

Ltac layout H :=
  unfold offsetof, widthof, padding_bytes, covered, element_offset, static_assert_size,
    disabled_static_assert_size;
  on_msl H; vm_compute; try reflexivity.

(** ** The layout on [apple_arm64], computed *)

Example SolidBrushVertex_fields :
  fields apple_arm64 SolidBrushVertex =
    [("position", (0, 12)); ("normal", (12, 12)); ("bitangent", (24, 12));
     ("curveDistance", (36, 4)); ("color", (40, 6))].
Proof. reflexivity. Qed.

Example with_materialProperties_fields :
  fields apple_arm64 (with_materialProperties packed_float2) =
    [("position", (0, 12)); ("normal", (12, 12)); ("bitangent", (24, 12));
     ("materialProperties", (36, 8)); ("curveDistance", (44, 4)); ("color", (48, 6))].
Proof. reflexivity. Qed.

(** Without the packing directive [materialProperties], aligned to 8 as a
    vector, would go to offset 40 and the struct would be 64 bytes. *)
Example with_materialProperties_unpacked :
  sizeof apple_arm64
    (TStruct None
       [("position", packed_float3); ("normal", packed_float3);
        ("bitangent", packed_float3); ("materialProperties", packed_float2);
        ("curveDistance", TScalar Float32); ("color", packed_half3)]) = 64.
Proof. reflexivity. Qed.

Example build_on_apple_arm64 :
  build apple_arm64 SolidBrushVertex_h = inr header_state.
Proof. vm_compute. reflexivity. Qed.

(** A platform whose [_Float16] took 4 bytes would fail the build. *)
Example build_fails_on_wide_half :
  build {| scalar_size := fun _ => 4; scalar_align := fun _ => 4 |} SolidBrushVertex_h =
  inl (StaticAssertFailed "ensure packing").
Proof. vm_compute. reflexivity. Qed.

(** * The claims *)

(** C1: [sizeof(struct SolidBrushVertex)] is 48.  On a platform with the
    scalar table of the shading language the layout rules give 48, the
    header's assertion holds and the header builds; and on any platform
    whatever, if the header builds then the size is 48 there, because the
    assertion is part of the build. *)
Theorem sizeof_SolidBrushVertex (P : platform) (H : msl_scalars P) :
  sizeof P SolidBrushVertex = 48 /\
  static_assert_size P = true /\
  build P SolidBrushVertex_h = inr header_state /\
  forall P' s, build P' SolidBrushVertex_h = inr s -> sizeof P' SolidBrushVertex = 48.
Proof.
  assert (Hsize : sizeof P SolidBrushVertex = 48) by layout H.
  assert (Hassert : static_assert_size P = true)
    by (unfold static_assert_size; rewrite Hsize; reflexivity).
  repeat split; try assumption.
  - rewrite build_header, Hassert. reflexivity.
  - intros P' s. rewrite build_header. unfold static_assert_size.
    destruct (Nat.eqb_spec (sizeof P' SolidBrushVertex) 48); [auto|discriminate].
Qed.

Lemma sizeof_SolidBrushVertex_witness :
  msl_scalars apple_arm64 /\ sizeof apple_arm64 SolidBrushVertex = 48.
Proof.
  split; [exact apple_arm64_msl|].
  exact (proj1 (sizeof_SolidBrushVertex apple_arm64 apple_arm64_msl)).
Defined.

(** C2: under the 4-byte packing the members lie, in the order they are
    declared, at offsets position 0, normal 12, bitangent 24,
    curveDistance 36 and color 40. *)
Theorem SolidBrushVertex_offsets (P : platform) (H : msl_scalars P) :
  map (fun f => (fst f, fst (snd f))) (fields P SolidBrushVertex) =
    [("position", 0); ("normal", 12); ("bitangent", 24);
     ("curveDistance", 36); ("color", 40)] /\
  offsetof P SolidBrushVertex "position" = Some 0 /\
  offsetof P SolidBrushVertex "normal" = Some 12 /\
  offsetof P SolidBrushVertex "bitangent" = Some 24 /\
  offsetof P SolidBrushVertex "curveDistance" = Some 36 /\
  offsetof P SolidBrushVertex "color" = Some 40.
Proof. repeat split; layout H. Qed.

Lemma SolidBrushVertex_offsets_witness :
  msl_scalars apple_arm64 /\ offsetof apple_arm64 SolidBrushVertex "color" = Some 40.
Proof.
  split; [exact apple_arm64_msl|].
  exact (proj2 (proj2 (proj2 (proj2 (proj2
    (SolidBrushVertex_offsets apple_arm64 apple_arm64_msl)))))).
Defined.

(** C3: the members have the packed widths of the table: position, normal
    and bitangent 12 bytes each (the three floats, where a three-lane
    vector type would take 16), curveDistance 4, and color 6, being three
    16-bit floats. *)
Theorem SolidBrushVertex_widths (P : platform) (H : msl_scalars P) :
  widthof P SolidBrushVertex "position" = Some 12 /\
  widthof P SolidBrushVertex "normal" = Some 12 /\
  widthof P SolidBrushVertex "bitangent" = Some 12 /\
  widthof P SolidBrushVertex "curveDistance" = Some 4 /\
  widthof P SolidBrushVertex "color" = Some 6 /\
  sizeof P packed_float3 = 12 /\
  sizeof P (TVector Float32 3) = 16 /\
  map snd (fields P packed_half3) = [(0, 2); (2, 2); (4, 2)] /\
  sizeof P packed_half3 = 6.
Proof. repeat split; layout H. Qed.

Lemma SolidBrushVertex_widths_witness :
  msl_scalars apple_arm64 /\ widthof apple_arm64 SolidBrushVertex "position" = Some 12.
Proof.
  split; [exact apple_arm64_msl|].
  exact (proj1 (SolidBrushVertex_widths apple_arm64 apple_arm64_msl)).
Defined.

(** C4: the size check is made while the header is built and its condition
    holds.  The header builds; on any platform the only way it can fail to
    build is the assertion's message; and it holds no item that emits code,
    so a built program has nothing from this unit to run. *)
Theorem static_assert_is_build_time (P : platform) (H : msl_scalars P) :
  static_assert_size P = true /\
  (exists s, build P SolidBrushVertex_h = inr s /\ code s = []) /\
  (forall P' e, build P' SolidBrushVertex_h = inl e ->
     e = StaticAssertFailed "ensure packing" /\ static_assert_size P' = false) /\
  (forall P' s, build P' SolidBrushVertex_h = inr s -> code s = []) /\
  forallb (fun i => negb (emits_code i)) SolidBrushVertex_h = true.
Proof.
  assert (Hassert : static_assert_size P = true) by layout H.
  split; [assumption|]. split; [|split; [|split]].
  - exists header_state. rewrite build_header, Hassert. auto.
  - intros P' e. rewrite build_header.
    destruct (static_assert_size P'); intros [= <-]. auto.
  - intros P' s. rewrite build_header.
    destruct (static_assert_size P'); intros [= <-]. reflexivity.
  - reflexivity.
Qed.

Lemma static_assert_is_build_time_witness :
  msl_scalars apple_arm64 /\ static_assert_size apple_arm64 = true.
Proof.
  split; [exact apple_arm64_msl|].
  exact (proj1 (static_assert_is_build_time apple_arm64 apple_arm64_msl)).
Defined.

(** C5: with [materialProperties], a member of 8 bytes, put back between
    bitangent and curveDistance under the same packing, the struct is 56
    bytes, whatever alignment the member's type asks for: the disabled
    assertion would hold, the later members move up by 8, and the header
    with the two commented-out lines switched on builds when the member has
    the header's own [packed_float2]. *)
Theorem sizeof_with_materialProperties (P : platform) (t : ctype)
  (H : msl_scalars P) (Ht : sizeof P t = 8) :
  sizeof P (with_materialProperties t) = 56 /\
  disabled_static_assert_size P t = true /\
  map (fun f => (fst f, fst (snd f))) (fields P (with_materialProperties t)) =
    [("position", 0); ("normal", 12); ("bitangent", 24); ("materialProperties", 36);
     ("curveDistance", 44); ("color", 48)] /\
  sizeof P packed_float2 = 8 /\
  build P SolidBrushVertex_h_with_materialProperties =
    inr header_state_with_materialProperties.
Proof.
  assert (Hf3 : sizeof P packed_float3 = 12) by layout H.
  assert (Af3 : alignof P packed_float3 = 4) by layout H.
  assert (Hf : sizeof P (TScalar Float32) = 4) by layout H.
  assert (Af : alignof P (TScalar Float32) = 4) by layout H.
  assert (Hh3 : sizeof P packed_half3 = 6) by layout H.
  assert (Ah3 : alignof P packed_half3 = 2) by layout H.
  assert (Hk : Nat.min 4 (alignof P t) <= 4) by lia.
  assert (Hsize : sizeof P (with_materialProperties t) = 56).
  { unfold with_materialProperties. rewrite sizeof_struct.
    cbn [alignof members_align members_end cap].
    change (scalar_align P Float32) with (alignof P (TScalar Float32)).
    rewrite Hf3, Af3, Hf, Af, Hh3, Ah3, Ht.
    revert Hk. generalize (Nat.min 4 (alignof P t)) as k. intros k Hk.
    do 5 (destruct k as [|k]; [reflexivity|]). lia. }
  split; [assumption|]. split; [|split; [|split]].
  - unfold disabled_static_assert_size. rewrite Hsize. reflexivity.
  - unfold with_materialProperties. cbn [fields place cap map fst snd].
    rewrite Hf3, Af3, Hf, Af, Ah3, Ht.
    revert Hk. generalize (Nat.min 4 (alignof P t)) as k. intros k Hk.
    do 5 (destruct k as [|k]; [reflexivity|]). lia.
  - layout H.
  - rewrite build_header_with_materialProperties.
    unfold disabled_static_assert_size. on_msl H. reflexivity.
Qed.

Lemma sizeof_with_materialProperties_witness :
  msl_scalars apple_arm64 /\ sizeof apple_arm64 packed_float2 = 8 /\
  sizeof apple_arm64 (with_materialProperties packed_float2) = 56.
Proof.
  split; [exact apple_arm64_msl|]. split; [reflexivity|].
  exact (proj1 (sizeof_with_materialProperties apple_arm64 packed_float2
                  apple_arm64_msl eq_refl)).
Defined.

(** C6: in any 48-byte object of type [SolidBrushVertex], writing a member
    at its offset and reading it back from that offset gives the bytes
    written; what every other member reads is unchanged, since no other
    member shares a byte with it. *)
Theorem SolidBrushVertex_write_read (P : platform) (H : msl_scalars P)
  (m v : list byte) (x : string) (o w : nat)
  (Hm : length m = 48)
  (Hx : assoc x (fields P SolidBrushVertex) = Some (o, w))
  (Hv : length v = w) :
  exists m',
    write_field P SolidBrushVertex x v m = Some m' /\
    length m' = 48 /\
    read_field P SolidBrushVertex x m' = Some v /\
    (forall y, y <> x ->
       read_field P SolidBrushVertex y m' = read_field P SolidBrushVertex y m) /\
    (forall y o' w', y <> x ->
       assoc y (fields P SolidBrushVertex) = Some (o', w') ->
       o + w <= o' \/ o' + w' <= o).
Proof.
  assert (Hsize : sizeof P SolidBrushVertex = 48) by layout H.
  destruct (write_read_field P SolidBrushVertex x o w m v Hx) as (m' & Hw & Hl & Hr & Hf);
    [congruence|assumption|].
  exists m'. split; [assumption|]. split; [congruence|].
  split; [assumption|]. split; [assumption|].
  intros y o' w' Hy Hy'. apply (fields_disjoint P SolidBrushVertex x y); auto.
Qed.

Lemma SolidBrushVertex_write_read_witness :
  let m := repeat x00 48 in
  let v := [x00; x3c; x00; x38; x00; x34] in
  exists m',
    write_field apple_arm64 SolidBrushVertex "color" v m = Some m' /\
    length m' = 48 /\
    read_field apple_arm64 SolidBrushVertex "color" m' = Some v /\
    (forall y, y <> "color" ->
       read_field apple_arm64 SolidBrushVertex y m' =
       read_field apple_arm64 SolidBrushVertex y m) /\
    (forall y o' w', y <> "color" ->
       assoc y (fields apple_arm64 SolidBrushVertex) = Some (o', w') ->
       40 + 6 <= o' \/ o' + w' <= 40).
Proof.
  intros m v.
  apply (SolidBrushVertex_write_read apple_arm64 apple_arm64_msl m v "color" 40 6);
    reflexivity.
Defined.

(** The packing in effect after the first [k] items of the header: 4 once
    the push has been read and until the pop is read, that is, for the
    struct declaration and for nothing else. *)
Lemma packing_in_effect P k :
  k <= 9 ->
  exists s,
    build_from P initial_state (take k SolidBrushVertex_h) = inr s /\
    pack s = (if (7 <=? k) && (k <=? 8) then Some 4 else None).
Proof.
  intros Hk.
  do 10 (destruct k as [|k];
         [eexists; split; [vm_compute; reflexivity|reflexivity]|]).
  lia.
Qed.

(** C7: the packing directive governs the whole struct declaration.  As the
    header is read, packing 4 is in effect from the push until the pop, the
    struct declaration lying between them, and at no other item.  The build
    binds the tag to a struct declared under packing 4, under which no
    member of whatever type is aligned to more than 4, while the alias
    declared before the push has no packing, and ends with the packing it
    started with.  That struct has alignment 4, every member offset in it is
    a multiple of 4, and each member starts where the one before it ends. *)
Theorem pack4_governs_SolidBrushVertex (P : platform) (H : msl_scalars P) :
  (forall k, k <= 9 ->
     exists s,
       build_from P initial_state (take k SolidBrushVertex_h) = inr s /\
       pack s = (if (7 <=? k) && (k <=? 8) then Some 4 else None)) /\
  exists s pk ms,
    build P SolidBrushVertex_h = inr s /\
    tags s !! "SolidBrushVertex" = Some (TStruct pk ms) /\
    pk = Some 4 /\
    map fst ms = ["position"; "normal"; "bitangent"; "curveDistance"; "color"] /\
    (forall a, cap pk a <= 4) /\
    (exists hs, types s !! "packed_half3" = Some (TStruct None hs)) /\
    pack s = pack initial_state /\
    pack_stack s = pack_stack initial_state /\
    alignof P (TStruct pk ms) = 4 /\
    Forall (fun f => fst (snd f) mod 4 = 0) (fields P (TStruct pk ms)) /\
    no_gaps (fields P (TStruct pk ms)) 0 = true.
Proof.
  split; [intros k Hk; apply packing_in_effect; assumption|].
  assert (Hassert : static_assert_size P = true) by layout H.
  exists header_state, (Some 4).
  eexists. split; [rewrite build_header, Hassert; reflexivity|].
  split; [reflexivity|]. split; [reflexivity|]. split; [reflexivity|].
  split; [intros a; cbn [cap]; lia|].
  split; [eexists; reflexivity|]. split; [reflexivity|]. split; [reflexivity|].
  fold packed_float3 packed_half3.
  change (TStruct (Some 4) _) with SolidBrushVertex.
  split; [layout H|]. split; [|layout H].
  on_msl H. repeat constructor.
Qed.

Lemma pack4_governs_SolidBrushVertex_witness :
  msl_scalars apple_arm64 /\
  exists s pk ms,
    build apple_arm64 SolidBrushVertex_h = inr s /\
    tags s !! "SolidBrushVertex" = Some (TStruct pk ms) /\
    pk = Some 4 /\
    alignof apple_arm64 (TStruct pk ms) = 4.
Proof.
  split; [exact apple_arm64_msl|].
  destruct (proj2 (pack4_governs_SolidBrushVertex apple_arm64 apple_arm64_msl))
    as (s & pk & ms & Hb & Ht & Hpk & _ & _ & _ & _ & _ & Hal & _).
  exists s, pk, ms. auto.
Defined.

(** C8: the member widths add up to 46, two less than the size: the last
    member, color, ends at byte 46, and bytes 46 and 47 are the only bytes
    of the struct that belong to no member. *)
Theorem SolidBrushVertex_tail_padding (P : platform) (H : msl_scalars P) :
  list_sum (map (fun f => snd (snd f)) (fields P SolidBrushVertex)) = 46 /\
  map (fun f => snd (snd f)) (fields P SolidBrushVertex) = [12; 12; 12; 4; 6] /\
  sizeof P SolidBrushVertex = 48 /\
  members_end (sizeof P) (alignof P) (Some 4)
    [("position", packed_float3); ("normal", packed_float3);
     ("bitangent", packed_float3); ("curveDistance", TScalar Float32);
     ("color", packed_half3)] 0 = 46 /\
  padding_bytes P SolidBrushVertex = [46; 47].
Proof.
  split; [layout H|]. split; [layout H|]. split; [layout H|]. split; [|layout H].
  assert (Hf3 : sizeof P packed_float3 = 12) by layout H.
  assert (Af3 : alignof P packed_float3 = 4) by layout H.
  assert (Hf : sizeof P (TScalar Float32) = 4) by layout H.
  assert (Af : alignof P (TScalar Float32) = 4) by layout H.
  assert (Hh3 : sizeof P packed_half3 = 6) by layout H.
  assert (Ah3 : alignof P packed_half3 = 2) by layout H.
  cbn [members_end]. rewrite Hf3, Af3, Hf, Af, Hh3, Ah3. reflexivity.
Qed.

Lemma SolidBrushVertex_tail_padding_witness :
  msl_scalars apple_arm64 /\ padding_bytes apple_arm64 SolidBrushVertex = [46; 47].
Proof.
  split; [exact apple_arm64_msl|].
  exact (proj2 (proj2 (proj2 (proj2
    (SolidBrushVertex_tail_padding apple_arm64 apple_arm64_msl))))).
Defined.

(** C9: in an array of [SolidBrushVertex], element [i] begins at byte
    [48 * i]: consecutive elements are one [sizeof] apart, an array of [n]
    elements is [48 * n] bytes and nothing more, and every element begins on
    the struct's alignment. *)
Theorem SolidBrushVertex_array_stride (P : platform) (H : msl_scalars P) (i n : nat) :
  element_offset P SolidBrushVertex i = 48 * i /\
  element_offset P SolidBrushVertex (S i) =
    element_offset P SolidBrushVertex i + sizeof P SolidBrushVertex /\
  sizeof P (TArray SolidBrushVertex n) = 48 * n /\
  sizeof P (TArray SolidBrushVertex n) = element_offset P SolidBrushVertex n /\
  element_offset P SolidBrushVertex i mod alignof P SolidBrushVertex = 0.
Proof.
  assert (Hsize : sizeof P SolidBrushVertex = 48) by layout H.
  assert (Halign : alignof P SolidBrushVertex = 4) by layout H.
  unfold element_offset. cbn [sizeof]. fold SolidBrushVertex.
  rewrite Hsize, Halign.
  repeat split; try lia.
  replace (i * 48) with ((i * 12) * 4) by lia. apply Nat.Div0.mod_mul.
Qed.

Lemma SolidBrushVertex_array_stride_witness :
  msl_scalars apple_arm64 /\ element_offset apple_arm64 SolidBrushVertex 3 = 144.
Proof.
  split; [exact apple_arm64_msl|].
  exact (proj1 (SolidBrushVertex_array_stride apple_arm64 apple_arm64_msl 3 4)).
Defined.

(** C10: [packed_half3] has no padding: x, y and z, each a 16-bit float, lie
    at offsets 0, 2 and 4, its size is 6 and its alignment 2. *)
Theorem packed_half3_layout (P : platform) (H : msl_scalars P) :
  fields P packed_half3 = [("x", (0, 2)); ("y", (2, 2)); ("z", (4, 2))] /\
  packed_half3 =
    TStruct None [("x", TScalar Float16); ("y", TScalar Float16); ("z", TScalar Float16)] /\
  sizeof P packed_half3 = 6 /\
  alignof P packed_half3 = 2 /\
  padding_bytes P packed_half3 = [].
Proof. repeat split; layout H. Qed.

Lemma packed_half3_layout_witness :
  msl_scalars apple_arm64 /\ sizeof apple_arm64 packed_half3 = 6.
Proof.
  split; [exact apple_arm64_msl|].
  exact (proj1 (proj2 (proj2 (packed_half3_layout apple_arm64 apple_arm64_msl)))).
Defined.

(** * Further properties of the header *)

(** ** The struct in other contexts *)

Lemma SolidBrushVertex_over_header :
  SolidBrushVertex = SolidBrushVertex_over (Some 4) packed_float3 packed_half3.
Proof. reflexivity. Qed.

Lemma align_up_0 a : align_up 0 a = 0.
Proof.
  unfold align_up. destruct (Nat.eqb_spec a 0) as [|Ha]; [reflexivity|].
  rewrite Nat.div_small by lia. reflexivity.
Qed.

(** Rounding up from inside a block of [a] bytes gives the end of the block. *)
Lemma align_up_next n r a :
  n mod a = 0 -> 0 < r <= a -> align_up (n + r) a = n + a.
Proof.
  intros Hn Hr. unfold align_up. destruct (Nat.eqb_spec a 0) as [|Ha]; [lia|].
  apply Nat.Div0.div_exact in Hn.
  replace (n + r + a - 1) with ((r - 1) + (n / a + 1) * a) by nia.
  rewrite Nat.div_add by lia. rewrite Nat.div_small by lia. nia.
Qed.

(** The members keep the offsets of the header whenever the capped
    alignments leave 12, 24, 36 and 40 where they are. *)
Lemma SolidBrushVertex_over_fields P pk T H3 :
  sizeof P T = 12 -> sizeof P (TScalar Float32) = 4 -> sizeof P H3 = 6 ->
  align_up 12 (cap pk (alignof P T)) = 12 ->
  align_up 24 (cap pk (alignof P T)) = 24 ->
  align_up 36 (cap pk (alignof P (TScalar Float32))) = 36 ->
  align_up 40 (cap pk (alignof P H3)) = 40 ->
  fields P (SolidBrushVertex_over pk T H3) =
    [("position", (0, 12)); ("normal", (12, 12)); ("bitangent", (24, 12));
     ("curveDistance", (36, 4)); ("color", (40, 6))] /\
  members_end (sizeof P) (alignof P) pk
    (struct_members (SolidBrushVertex_over pk T H3)) 0 = 46.
Proof.
  intros HT HF HH H12 H24 H36 H40.
  unfold SolidBrushVertex_over, struct_members.
  cbn [fields place members_end].
  rewrite HT, HF, HH, align_up_0. cbn [Nat.add].
  rewrite H12. cbn [Nat.add]. rewrite H24. cbn [Nat.add]. rewrite H36.
  cbn [Nat.add]. rewrite H40. split; reflexivity.
Qed.

Lemma align_up_small k :
  k <= 4 -> align_up 12 k = 12 /\ align_up 24 k = 24 /\ align_up 36 k = 36.
Proof.
  intros Hk. do 5 (destruct k as [|k]; [repeat split; reflexivity|]). lia.
Qed.

Lemma align_up_40 k : k <= 2 \/ k = 4 -> align_up 40 k = 40.
Proof.
  intros Hk. do 5 (destruct k as [|k]; [reflexivity || lia|]). lia.
Qed.

Lemma over_pack4_layout (P : platform) (T H3 : ctype)
  (H : msl_scalars P)
  (HT : sizeof P T = 12) (HH : sizeof P H3 = 6) (Ha : alignof P H3 <= 2) :
  fields P (SolidBrushVertex_over (Some 4) T H3) =
    [("position", (0, 12)); ("normal", (12, 12)); ("bitangent", (24, 12));
     ("curveDistance", (36, 4)); ("color", (40, 6))] /\
  sizeof P (SolidBrushVertex_over (Some 4) T H3) = 48 /\
  alignof P (SolidBrushVertex_over (Some 4) T H3) = 4.
Proof.
  destruct H as (Hf & Haf & _ & _).
  assert (HkT : Nat.min 4 (alignof P T) <= 4) by lia.
  destruct (align_up_small _ HkT) as (H12 & H24 & _).
  assert (H36 : align_up 36 (cap (Some 4) (alignof P (TScalar Float32))) = 36)
    by (cbn [cap alignof]; rewrite Haf; reflexivity).
  assert (H40 : align_up 40 (cap (Some 4) (alignof P H3)) = 40)
    by (apply align_up_40; cbn [cap]; lia).
  destruct (SolidBrushVertex_over_fields P (Some 4) T H3 HT Hf HH H12 H24 H36 H40)
    as [Hfields Hend].
  assert (Halign : alignof P (SolidBrushVertex_over (Some 4) T H3) = 4).
  { unfold SolidBrushVertex_over. cbn [alignof members_align cap]. rewrite Haf. lia. }
  split; [assumption|]. split; [|assumption].
  unfold SolidBrushVertex_over in *. rewrite sizeof_struct, Halign.
  cbn [struct_members] in Hend. rewrite Hend. reflexivity.
Qed.

(** X1: The layout of the struct under packing 4 takes from the two vector
    types only their sizes: with any type of 12 bytes for [packed_float3]
    and any type of 6 bytes aligned to 2 or less for [packed_half3], the
    members lie where the header's assertion expects them. *)
Theorem layout_needs_only_the_sizes (P : platform) (T H3 : ctype)
  (H : msl_scalars P)
  (HT : sizeof P T = 12) (HH : sizeof P H3 = 6) (Ha : alignof P H3 <= 2) :
  fields P (SolidBrushVertex_over (Some 4) T H3) =
    [("position", (0, 12)); ("normal", (12, 12)); ("bitangent", (24, 12));
     ("curveDistance", (36, 4)); ("color", (40, 6))] /\
  sizeof P (SolidBrushVertex_over (Some 4) T H3) = 48 /\
  alignof P (SolidBrushVertex_over (Some 4) T H3) = 4.
Proof. exact (over_pack4_layout P T H3 H HT HH Ha). Qed.

Lemma layout_needs_only_the_sizes_witness :
  msl_scalars apple_arm64 /\
  sizeof apple_arm64 (TArray (TScalar Float32) 3) = 12 /\
  sizeof apple_arm64 (TArray (TScalar Float16) 3) = 6 /\
  sizeof apple_arm64
    (SolidBrushVertex_over (Some 4) (TArray (TScalar Float32) 3)
       (TArray (TScalar Float16) 3)) = 48.
Proof.
  split; [exact apple_arm64_msl|]. split; [reflexivity|]. split; [reflexivity|].
  refine (proj1 (proj2 (layout_needs_only_the_sizes apple_arm64
            (TArray (TScalar Float32) 3) (TArray (TScalar Float16) 3)
            apple_arm64_msl eq_refl eq_refl _))).
  vm_compute. lia.
Defined.

Lemma multiple_of_4 n k : n mod 4 = 0 -> k = 1 \/ k = 2 \/ k = 4 -> n mod k = 0.
Proof.
  intros Hn Hk. apply Nat.Div0.div_exact in Hn. rewrite Hn.
  destruct Hk as [-> | [-> | ->]].
  - apply Nat.mod_1_r.
  - replace (4 * (n / 4)) with (2 * (n / 4) * 2) by lia. apply Nat.Div0.mod_mul.
  - rewrite Nat.mul_comm. apply Nat.Div0.mod_mul.
Qed.

(** X2: The assertion is a check on the type behind [packed_float3]: for a type
    whose size is a multiple of 4 and whose alignment is a power of two up
    to 16, the struct takes three times that size and 12 bytes more, so the
    assertion holds exactly when the type is 12 bytes. *)
Theorem static_assert_pins_vector_size (P : platform) (T : ctype)
  (H : msl_scalars P)
  (Hs : sizeof P T mod 4 = 0)
  (Ha : In (alignof P T) [1; 2; 4; 8; 16]) :
  sizeof P (SolidBrushVertex_over (Some 4) T packed_half3) = 3 * sizeof P T + 12 /\
  (sizeof P (SolidBrushVertex_over (Some 4) T packed_half3) = 48 <-> sizeof P T = 12).
Proof.
  assert (Hf : sizeof P (TScalar Float32) = 4) by layout H.
  assert (Af : alignof P (TScalar Float32) = 4) by layout H.
  assert (Hh3 : sizeof P packed_half3 = 6) by layout H.
  assert (Ah3 : alignof P packed_half3 = 2) by layout H.
  assert (Hk : exists k, Nat.min 4 (alignof P T) = k /\ (k = 1 \/ k = 2 \/ k = 4)).
  { simpl in Ha.
    repeat (destruct Ha as [Ha|Ha]; [rewrite <- Ha; eexists; split; [reflexivity|auto]|]).
    destruct Ha. }
  destruct Hk as (k & Hmin & Hk).
  assert (Hsize : sizeof P (SolidBrushVertex_over (Some 4) T packed_half3)
                  = 3 * sizeof P T + 12).
  { unfold SolidBrushVertex_over. rewrite sizeof_struct.
    cbn [alignof members_align members_end cap].
    change (scalar_align P Float32) with (alignof P (TScalar Float32)).
    rewrite Hf, Af, Hh3, Ah3, Hmin, align_up_0.
    set (s := sizeof P T) in *.
    replace (Nat.max k (Nat.max k (Nat.max k (Nat.max (Nat.min 4 4)
               (Nat.max (Nat.min 4 2) 1))))) with 4 by lia.
    cbn [Nat.add Nat.min].
    rewrite (align_up_multiple s k) by (try apply multiple_of_4; auto; lia).
    rewrite (align_up_multiple (s + s) k).
    2: lia.
    2: { apply multiple_of_4; [|assumption].
         rewrite Nat.Div0.add_mod, Hs. reflexivity. }
    assert (H3s : (s + s + s) mod 4 = 0).
    { rewrite Nat.Div0.add_mod, (Nat.Div0.add_mod s s), Hs. reflexivity. }
    rewrite (align_up_multiple (s + s + s) 4) by (auto; lia).
    rewrite (align_up_multiple (s + s + s + 4) 2).
    2: lia.
    2: { apply multiple_of_4; [|auto].
         rewrite Nat.Div0.add_mod, H3s. reflexivity. }
    replace (s + s + s + 4 + 6) with ((s + s + s + 8) + 2) by lia.
    rewrite align_up_next; [lia| |lia].
    rewrite Nat.Div0.add_mod, H3s. reflexivity. }
  split; [assumption|]. rewrite Hsize. lia.
Qed.

Lemma static_assert_pins_vector_size_witness :
  msl_scalars apple_arm64 /\
  sizeof apple_arm64 (TVector Float32 3) = 16 /\
  sizeof apple_arm64 (SolidBrushVertex_over (Some 4) (TVector Float32 3) packed_half3)
    = 60.
Proof.
  split; [exact apple_arm64_msl|]. split; [reflexivity|].
  refine (proj1 (static_assert_pins_vector_size apple_arm64 (TVector Float32 3)
                   apple_arm64_msl eq_refl _)).
  vm_compute. auto 10.
Defined.

(** ** The header under an includer's packing *)

Lemma build_from_asserted P s0 decls s tag t n msg :
  build_from P s0 decls = inr s ->
  tags s !! tag = Some t ->
  build_from P s0 (decls ++ [StaticAssertSizeof tag n msg]) =
  if sizeof P t =? n then inr s else inl (StaticAssertFailed msg).
Proof.
  intros Hdecls Htag.
  rewrite build_from_app, Hdecls. cbn [bind build_from step].
  unfold resolve. rewrite Htag. cbn [bind].
  destruct (sizeof P t =? n); reflexivity.
Qed.

(** Whatever packing the alias is declared under, it is 6 bytes and its
    alignment 1 or 2. *)
Lemma packed_half3_under_layout P p :
  msl_scalars P ->
  sizeof P (packed_half3_under p) = 6 /\
  1 <= alignof P (packed_half3_under p) <= 2.
Proof.
  intros (_ & _ & Hh & Hah).
  unfold packed_half3_under. rewrite sizeof_struct.
  cbn [alignof members_align members_end sizeof].
  rewrite Hh, Hah, align_up_0.
  assert (Hk : cap p 2 <= 2) by (destruct p; simpl; lia).
  revert Hk. generalize (cap p 2) as k. intros k Hk.
  do 3 (destruct k as [|k]; [split; [reflexivity|simpl; lia]|]). lia.
Qed.

Lemma header_declarations_from P p st :
  build_from P (included_from p st) (take 9 SolidBrushVertex_h) =
  inr (header_state_from p st).
Proof. vm_compute. reflexivity. Qed.

(** X3: The header leaves the includer's packing as it found it, and its struct
    does not depend on that packing: included where packing [p] is in
    effect, with [st] saved, the header builds, ends with [p] in effect and
    [st] saved, and binds the tag to a struct with the members at the same
    offsets and of 48 bytes, although [packed_half3], declared before the
    directive, is then a struct packed to [p]. *)
Theorem header_keeps_includer_packing (P : platform) (p : option nat)
  (st : list (option nat)) (H : msl_scalars P) :
  exists s,
    build_from P (included_from p st) SolidBrushVertex_h = inr s /\
    pack s = p /\ pack_stack s = st /\
    types s !! "packed_half3" = Some (packed_half3_under p) /\
    tags s !! "SolidBrushVertex" =
      Some (SolidBrushVertex_over (Some 4) packed_float3 (packed_half3_under p)) /\
    fields P (SolidBrushVertex_over (Some 4) packed_float3 (packed_half3_under p)) =
      fields P SolidBrushVertex /\
    sizeof P (SolidBrushVertex_over (Some 4) packed_float3 (packed_half3_under p)) = 48.
Proof.
  destruct (packed_half3_under_layout P p H) as [Hsz Hal].
  assert (HT : sizeof P packed_float3 = 12) by layout H.
  destruct (over_pack4_layout P packed_float3 (packed_half3_under p) H HT Hsz)
    as (Hfields & Hsize & _); [lia|].
  exists (header_state_from p st). split.
  - rewrite <- (take_drop 9 SolidBrushVertex_h).
    change (drop 9 SolidBrushVertex_h)
      with [StaticAssertSizeof "SolidBrushVertex" 48 "ensure packing"].
    rewrite (build_from_asserted P _ _ (header_state_from p st) "SolidBrushVertex"
               (SolidBrushVertex_over (Some 4) packed_float3 (packed_half3_under p))
               48 _ (header_declarations_from P p st) eq_refl).
    rewrite Hsize. reflexivity.
  - split; [reflexivity|]. split; [reflexivity|]. split; [reflexivity|].
    split; [reflexivity|]. split; [|assumption].
    rewrite Hfields. layout H.
Qed.

Lemma header_keeps_includer_packing_witness :
  msl_scalars apple_arm64 /\
  exists s,
    build_from apple_arm64 (included_from (Some 1) [None]) SolidBrushVertex_h = inr s /\
    pack s = Some 1 /\ pack_stack s = [None].
Proof.
  split; [exact apple_arm64_msl|].
  destruct (header_keeps_includer_packing apple_arm64 (Some 1) [None] apple_arm64_msl)
    as (s & Hs & Hp & Hst & _).
  exists s. auto.
Defined.

(** ** The value of the packing directive *)

Lemma header_declarations_packed P n :
  build_from P initial_state (take 9 (SolidBrushVertex_h_packed n)) =
  inr (header_state_packed n).
Proof. vm_compute. reflexivity. Qed.

Lemma build_header_packed P n :
  build P (SolidBrushVertex_h_packed n) =
  if sizeof P (SolidBrushVertex_over (Some n) packed_float3 packed_half3) =? 48
  then inr (header_state_packed n)
  else inl (StaticAssertFailed "ensure packing").
Proof.
  unfold build.
  rewrite <- (take_drop 9 (SolidBrushVertex_h_packed n)).
  change (drop 9 (SolidBrushVertex_h_packed n))
    with [StaticAssertSizeof "SolidBrushVertex" 48 "ensure packing"].
  apply build_from_asserted; [apply header_declarations_packed|reflexivity].
Qed.

Lemma over_wide_pack_layout P n :
  msl_scalars P -> 4 <= n ->
  fields P (SolidBrushVertex_over (Some n) packed_float3 packed_half3) =
    [("position", (0, 12)); ("normal", (12, 12)); ("bitangent", (24, 12));
     ("curveDistance", (36, 4)); ("color", (40, 6))] /\
  sizeof P (SolidBrushVertex_over (Some n) packed_float3 packed_half3) = 48.
Proof.
  intros H Hn.
  assert (Hf3 : sizeof P packed_float3 = 12) by layout H.
  assert (Af3 : alignof P packed_float3 = 4) by layout H.
  assert (Hf : sizeof P (TScalar Float32) = 4) by layout H.
  assert (Af : alignof P (TScalar Float32) = 4) by layout H.
  assert (Hh3 : sizeof P packed_half3 = 6) by layout H.
  assert (Ah3 : alignof P packed_half3 = 2) by layout H.
  destruct (SolidBrushVertex_over_fields P (Some n) packed_float3 packed_half3)
    as [Hfields Hend]; try assumption;
    try (cbn [cap]; rewrite ?Af3, ?Af, ?Ah3, Nat.min_r by lia; reflexivity).
  split; [assumption|].
  unfold SolidBrushVertex_over in *. rewrite sizeof_struct.
  cbn [struct_members] in Hend. rewrite Hend.
  cbn [alignof members_align cap].
  change (scalar_align P Float32) with (alignof P (TScalar Float32)).
  rewrite Af3, Af, Ah3, !Nat.min_r by lia. reflexivity.
Qed.

(** X4: What the 4 of the directive is needed for.  With any packing of 4 or
    more the members lie at the same offsets and the struct is 48 bytes, so
    the header builds; packed to 1 or 2 the members still lie at the same
    offsets but the struct loses its tail padding, is 46 bytes, and the
    assertion stops the build.  With no directive at all the struct as
    declared has the layout it has under packing 4. *)
Theorem static_assert_rejects_tighter_packing (P : platform) (n : nat)
  (H : msl_scalars P) (Hn : n = 1 \/ n = 2 \/ 4 <= n) :
  fields P (SolidBrushVertex_over (Some n) packed_float3 packed_half3) =
    fields P SolidBrushVertex /\
  sizeof P (SolidBrushVertex_over (Some n) packed_float3 packed_half3) =
    (if n <? 4 then 46 else 48) /\
  build P (SolidBrushVertex_h_packed n) =
    (if n <? 4 then inl (StaticAssertFailed "ensure packing")
     else inr (header_state_packed n)) /\
  fields P (SolidBrushVertex_over None packed_float3 packed_half3) =
    fields P SolidBrushVertex /\
  sizeof P (SolidBrushVertex_over None packed_float3 packed_half3) = 48.
Proof.
  rewrite build_header_packed.
  destruct Hn as [-> | [-> | Hn]].
  - repeat split; layout H.
  - repeat split; layout H.
  - destruct (over_wide_pack_layout P n H Hn) as [Hfields Hsize].
    rewrite Hfields, Hsize.
    destruct (Nat.ltb_spec n 4) as [|_]; [lia|].
    repeat split; layout H.
Qed.

Lemma static_assert_rejects_tighter_packing_witness :
  (1 = 1 \/ 1 = 2 \/ 4 <= 1) /\
  build apple_arm64 (SolidBrushVertex_h_packed 1) =
    inl (StaticAssertFailed "ensure packing").
Proof.
  split; [left; reflexivity|].
  exact (proj1 (proj2 (proj2 (static_assert_rejects_tighter_packing apple_arm64 1
                                apple_arm64_msl (or_introl eq_refl))))).
Defined.

(** ** Alignment of the scalars *)

Lemma members_scalars_ext size size' align align' sc sc' pk ms cur :
  Forall (agree size size' align align') ms ->
  Forall (fun m => sc (snd m) = sc' (snd m)) ms ->
  members_scalars size align sc pk ms cur = members_scalars size' align' sc' pk ms cur.
Proof.
  intros Hms Hsc. revert cur.
  induction Hms as [|[x t] l [Hs Ha] _ IH]; intros cur; simpl in *; [reflexivity|].
  inversion Hsc as [|? ? Ht Hl]; subst. simpl in Ht.
  rewrite Hs, Ha, Ht, IH by assumption. reflexivity.
Qed.

Lemma scalars_ext P P' :
  (forall s, scalar_size P s = scalar_size P' s) ->
  (forall s, scalar_align P s = scalar_align P' s) ->
  forall t, scalars P t = scalars P' t.
Proof.
  intros Hsize Halign t.
  induction t as [s|e n|e n IH|pk ms IH] using ctype_induction; simpl.
  - reflexivity.
  - rewrite Hsize. reflexivity.
  - rewrite IH, (proj1 (layout_ext P P' Hsize Halign e)). reflexivity.
  - apply members_scalars_ext; [|assumption].
    apply Forall_forall. intros m _. apply layout_ext; assumption.
Qed.

Lemma aligned_sum i n o a : n mod a = 0 -> o mod a = 0 -> (i * n + o) mod a = 0.
Proof.
  intros Hn Ho.
  apply Nat.Div0.div_exact in Hn. apply Nat.Div0.div_exact in Ho.
  rewrite Hn, Ho.
  replace (i * (a * (n / a)) + a * (o / a)) with ((i * (n / a) + o / a) * a) by lia.
  apply Nat.Div0.mod_mul.
Qed.

(** X5: A vertex is made of thirteen scalars, ten floats and three halves, and
    in an array of vertices every one of them lies on its own alignment:
    packing the struct to 4 leaves no float off a 4-byte boundary and no
    half off a 2-byte boundary, in any element. *)
Theorem vertex_scalars_aligned (P : platform) (i : nat) (H : msl_scalars P) :
  scalars P SolidBrushVertex =
    [(0, Float32); (4, Float32); (8, Float32);
     (12, Float32); (16, Float32); (20, Float32);
     (24, Float32); (28, Float32); (32, Float32);
     (36, Float32);
     (40, Float16); (42, Float16); (44, Float16)] /\
  Forall (fun l => (element_offset P SolidBrushVertex i + fst l)
                     mod scalar_align P (snd l) = 0)
    (scalars P SolidBrushVertex).
Proof.
  assert (Hsc : scalars P SolidBrushVertex = scalars apple_arm64 SolidBrushVertex).
  { destruct H as (Hf & Haf & Hh & Hah).
    apply scalars_ext; intros []; assumption. }
  assert (Hsize : sizeof P SolidBrushVertex = 48) by layout H.
  rewrite Hsc.
  assert (Hlist : scalars apple_arm64 SolidBrushVertex =
            [(0, Float32); (4, Float32); (8, Float32);
             (12, Float32); (16, Float32); (20, Float32);
             (24, Float32); (28, Float32); (32, Float32);
             (36, Float32);
             (40, Float16); (42, Float16); (44, Float16)]) by reflexivity.
  rewrite Hlist. split; [reflexivity|].
  unfold element_offset. rewrite Hsize.
  destruct H as (Hf & Haf & Hh & Hah).
  repeat (apply Forall_cons; split;
          [cbn [fst snd]; rewrite ?Haf, ?Hah; apply aligned_sum; reflexivity|]).
  apply Forall_nil. exact I.
Qed.

Lemma vertex_scalars_aligned_witness :
  msl_scalars apple_arm64 /\
  Forall (fun l => (element_offset apple_arm64 SolidBrushVertex 7 + fst l)
                     mod scalar_align apple_arm64 (snd l) = 0)
    (scalars apple_arm64 SolidBrushVertex).
Proof.
  split; [exact apple_arm64_msl|].
  exact (proj2 (vertex_scalars_aligned apple_arm64 7 apple_arm64_msl)).
Defined.

(** ** Objects byte by byte *)

Lemma lookup_store m off v i :
  off + length v <= length m ->
  store m off v !! i =
  if decide (off <= i < off + length v) then v !! (i - off) else m !! i.
Proof.
  intros Hin. unfold store.
  destruct (decide (off <= i < off + length v)) as [Hi|Hi].
  - rewrite lookup_app_r by (rewrite length_take; lia).
    rewrite length_take, Nat.min_l by lia.
    apply lookup_app_l. lia.
  - destruct (decide (i < off)) as [Hlt|Hge].
    + rewrite lookup_app_l by (rewrite length_take; lia).
      apply lookup_take_lt. assumption.
    + rewrite lookup_app_r by (rewrite length_take; lia).
      rewrite length_take, Nat.min_l by lia.
      rewrite lookup_app_r by lia.
      rewrite lookup_drop. f_equal. lia.
Qed.

(** Stores to ranges that share no byte can be done in either order. *)
Lemma store_commute m o v o' v' :
  o + length v <= length m -> o' + length v' <= length m ->
  o + length v <= o' \/ o' + length v' <= o ->
  store (store m o v) o' v' = store (store m o' v') o v.
Proof.
  intros Hv Hv' Hd. apply list_eq. intros i.
  rewrite !lookup_store by (rewrite ?length_store; lia).
  repeat case_decide; try reflexivity; lia.
Qed.

(** A store to the same range replaces the one before it. *)
Lemma store_store m o v v' :
  o + length v <= length m -> length v' = length v ->
  store (store m o v) o v' = store m o v'.
Proof.
  intros Hv Hlen. apply list_eq. intros i.
  rewrite !lookup_store by (rewrite ?length_store; lia).
  rewrite Hlen. repeat case_decide; try reflexivity; lia.
Qed.

Lemma write_field_length P t x v m m' :
  write_field P t x v m = Some m' -> length m' = length m.
Proof.
  unfold write_field. destruct (assoc x (fields P t)) as [[o w]|]; [|discriminate].
  case_decide as Hok; [|discriminate]. intros [= <-].
  apply length_store. lia.
Qed.

(** Writes of two different members of a struct commute, failures included. *)
Lemma write_field_commute P t x y vx vy m :
  x <> y ->
  write_field P t x vx m ≫= write_field P t y vy =
  write_field P t y vy m ≫= write_field P t x vx.
Proof.
  intros Hxy. unfold write_field.
  destruct (assoc x (fields P t)) as [[o w]|] eqn:Hx,
           (assoc y (fields P t)) as [[o' w']|] eqn:Hy; simpl;
    repeat (case_decide; simpl); rewrite ?Hx, ?Hy; simpl;
    repeat (case_decide; simpl);
    try reflexivity;
    try (rewrite ?length_store in * by lia; exfalso; intuition lia).
  f_equal. apply store_commute; try lia.
  destruct (fields_disjoint P t x y o w o' w' Hxy Hx Hy); lia.
Qed.

Lemma write_field_again P t x v v' m m1 :
  write_field P t x v m = Some m1 ->
  write_field P t x v' m1 = write_field P t x v' m.
Proof.
  intros Hw. pose proof (write_field_length _ _ _ _ _ _ Hw) as Hlen.
  unfold write_field in *.
  destruct (assoc x (fields P t)) as [[o w]|]; [|discriminate].
  case_decide as Hok; [|discriminate]. injection Hw as <-.
  rewrite Hlen. case_decide as Hok'; [|reflexivity].
  f_equal. apply store_store; lia.
Qed.

(** X6: Writes to the members of a vertex do not depend on their order: two
    writes to different members give the same object, or fail alike, in
    either order; and a second write to a member leaves the object as if the
    first had not been made. *)
Theorem SolidBrushVertex_writes_commute (P : platform) (x y : string)
  (vx vy : list byte) (m : list byte) (Hxy : x <> y) :
  (write_field P SolidBrushVertex x vx m ≫= write_field P SolidBrushVertex y vy =
   write_field P SolidBrushVertex y vy m ≫= write_field P SolidBrushVertex x vx) /\
  (forall m1 v', write_field P SolidBrushVertex x vx m = Some m1 ->
     write_field P SolidBrushVertex x v' m1 = write_field P SolidBrushVertex x v' m).
Proof.
  split.
  - apply write_field_commute. assumption.
  - intros m1 v'. apply write_field_again.
Qed.

Lemma SolidBrushVertex_writes_commute_witness :
  "curveDistance" <> "color" /\
  let m := repeat x00 48 in
  let d := [x00; x00; x80; x3f] in
  let c := [x00; x3c; x00; x38; x00; x34] in
  write_field apple_arm64 SolidBrushVertex "curveDistance" d m
    ≫= write_field apple_arm64 SolidBrushVertex "color" c =
  write_field apple_arm64 SolidBrushVertex "color" c m
    ≫= write_field apple_arm64 SolidBrushVertex "curveDistance" d.
Proof.
  split; [discriminate|]. intros m d c.
  refine (proj1 (SolidBrushVertex_writes_commute apple_arm64 "curveDistance" "color"
                   d c m _)).
  discriminate.
Defined.

(** ** What the members say about an object *)

Lemma load_app m o w w' :
  load m o (w + w') = (load m o w ++ load m (o + w) w')%list.
Proof.
  unfold load. rewrite <- take_take_drop, drop_drop. reflexivity.
Qed.

Lemma load_take m n o w : o + w <= n -> load (take n m) o w = load m o w.
Proof.
  intros Hn. unfold load.
  replace n with (o + (n - o)) by lia.
  rewrite <- take_drop_commute, take_take. f_equal. lia.
Qed.

Lemma read_field_msl P x m :
  msl_scalars P -> length m = 48 ->
  read_field P SolidBrushVertex x m =
  (fun f => load m (fst f) (snd f)) <$> assoc x (fields apple_arm64 SolidBrushVertex).
Proof.
  intros H Hm. unfold read_field. on_msl H.
  destruct (assoc x (fields apple_arm64 SolidBrushVertex)) as [[o w]|] eqn:Hx;
    [|reflexivity].
  apply field_in_object in Hx. change (sizeof apple_arm64 SolidBrushVertex) with 48 in Hx.
  rewrite decide_True by lia. reflexivity.
Qed.

(** No member of the header reaches beyond byte 45. *)
Lemma field_before_padding x o w :
  assoc x (fields apple_arm64 SolidBrushVertex) = Some (o, w) -> o + w <= 46.
Proof.
  intros Hx.
  apply (place_bounds (sizeof apple_arm64) (alignof apple_arm64) (Some 4)) in Hx.
  exact (proj2 Hx).
Qed.

(** X7: Two vertex objects read the same in every member exactly when they
    agree on their first 46 bytes: the members say nothing about bytes 46
    and 47, so objects equal member by member need not be equal byte by
    byte. *)
Theorem members_fix_the_first_46_bytes (P : platform) (m1 m2 : list byte)
  (H : msl_scalars P) (H1 : length m1 = 48) (H2 : length m2 = 48) :
  ((forall x, read_field P SolidBrushVertex x m1 = read_field P SolidBrushVertex x m2)
   <-> take 46 m1 = take 46 m2) /\
  exists m m', length m = 48 /\ length m' = 48 /\
    (forall x, read_field P SolidBrushVertex x m = read_field P SolidBrushVertex x m') /\
    m <> m'.
Proof.
  assert (Hiff : forall a b : list byte, length a = 48 -> length b = 48 ->
            ((forall x, read_field P SolidBrushVertex x a = read_field P SolidBrushVertex x b)
             <-> take 46 a = take 46 b)).
  { intros a b Ha Hb. split.
    - intros Hall.
      assert (Hf : forall x o w,
                assoc x (fields apple_arm64 SolidBrushVertex) = Some (o, w) ->
                load a o w = load b o w).
      { intros x o w Hx. specialize (Hall x).
        rewrite !read_field_msl, Hx in Hall by assumption.
        simpl in Hall. congruence. }
      change (take 46 a) with (load a 0 46). change (take 46 b) with (load b 0 46).
      change 46 with (12 + (12 + (12 + (4 + 6)))).
      rewrite !load_app. cbn [Nat.add].
      rewrite (Hf "position" 0 12), (Hf "normal" 12 12), (Hf "bitangent" 24 12),
        (Hf "curveDistance" 36 4), (Hf "color" 40 6) by reflexivity.
      reflexivity.
    - intros Heq x. rewrite !read_field_msl by assumption.
      destruct (assoc x (fields apple_arm64 SolidBrushVertex)) as [[o w]|] eqn:Hx;
        [|reflexivity].
      simpl. f_equal.
      apply field_before_padding in Hx.
      rewrite <- (load_take a 46), <- (load_take b 46), Heq by lia.
      reflexivity. }
  split; [apply Hiff; assumption|].
  exists (repeat x00 48), (repeat x00 46 ++ [x01; x01])%list.
  split; [reflexivity|]. split; [reflexivity|]. split.
  - apply Hiff; reflexivity.
  - discriminate.
Qed.

Lemma members_fix_the_first_46_bytes_witness :
  msl_scalars apple_arm64 /\
  ((forall x, read_field apple_arm64 SolidBrushVertex x (repeat x00 48) =
              read_field apple_arm64 SolidBrushVertex x (repeat xff 46 ++ [x00; x00])%list)
   <-> take 46 (repeat x00 48) = take 46 (repeat xff 46 ++ [x00; x00])%list).
Proof.
  split; [exact apple_arm64_msl|].
  exact (proj1 (members_fix_the_first_46_bytes apple_arm64 (repeat x00 48)
                  (repeat xff 46 ++ [x00; x00])%list apple_arm64_msl eq_refl eq_refl)).
Defined.

(** ** Filling in a vertex *)

Lemma store_after (a r v : list byte) o :
  length a = o -> store (a ++ r) o v = (a ++ v ++ drop (length v) r)%list.
Proof.
  intros <-. unfold store.
  rewrite take_app_length, drop_app_add. reflexivity.
Qed.

Lemma load_middle (a v r : list byte) o w :
  length a = o -> length v = w -> load (a ++ v ++ r) o w = v.
Proof.
  intros <- <-. unfold load.
  rewrite drop_app_length. apply take_app_length.
Qed.

Lemma write_field_msl P x v m :
  msl_scalars P ->
  write_field P SolidBrushVertex x v m = write_field apple_arm64 SolidBrushVertex x v m.
Proof. intros H. unfold write_field. on_msl H. reflexivity. Qed.

(** Writing the member that starts where the bytes written so far end. *)
Lemma write_next x o w (a r v : list byte) :
  assoc x (fields apple_arm64 SolidBrushVertex) = Some (o, w) ->
  length a = o -> length v = w -> w <= length r ->
  write_field apple_arm64 SolidBrushVertex x v (a ++ r) =
  Some ((a ++ v) ++ drop w r)%list.
Proof.
  intros Hx Ha Hv Hr. unfold write_field. rewrite Hx.
  rewrite decide_True by (rewrite length_app; lia).
  rewrite store_after by assumption. rewrite Hv, app_assoc. reflexivity.
Qed.

(** X8: Filling in the five members of a 48-byte object, in the order of the
    declaration, gives the five values one after the other and then bytes 46
    and 47 as the object had them before: the padding is never written.
    Every member then reads as the value written. *)
Theorem filling_a_vertex (P : platform) (m pos nrm bit cd col : list byte)
  (H : msl_scalars P) (Hm : length m = 48)
  (Hpos : length pos = 12) (Hnrm : length nrm = 12) (Hbit : length bit = 12)
  (Hcd : length cd = 4) (Hcol : length col = 6) :
  let m' := (pos ++ nrm ++ bit ++ cd ++ col ++ drop 46 m)%list in
  write_fields P SolidBrushVertex
    [("position", pos); ("normal", nrm); ("bitangent", bit);
     ("curveDistance", cd); ("color", col)] m = Some m' /\
  length m' = 48 /\
  read_field P SolidBrushVertex "position" m' = Some pos /\
  read_field P SolidBrushVertex "normal" m' = Some nrm /\
  read_field P SolidBrushVertex "bitangent" m' = Some bit /\
  read_field P SolidBrushVertex "curveDistance" m' = Some cd /\
  read_field P SolidBrushVertex "color" m' = Some col.
Proof.
  intros m'.
  assert (Hlen : length m' = 48).
  { unfold m'. rewrite !length_app, length_drop. lia. }
  split; [|split; [assumption|]].
  - cbn [write_fields]. rewrite !write_field_msl by assumption.
    change m with ([] ++ m)%list at 1.
    rewrite (write_next "position" 0 12) by (reflexivity || assumption || lia).
    rewrite write_field_msl by assumption.
    rewrite (write_next "normal" 12 12)
      by (reflexivity || assumption || rewrite ?length_app, ?length_drop; simpl; lia).
    rewrite write_field_msl by assumption.
    rewrite (write_next "bitangent" 24 12)
      by (reflexivity || assumption || rewrite ?length_app, ?length_drop; simpl; lia).
    rewrite write_field_msl by assumption.
    rewrite (write_next "curveDistance" 36 4)
      by (reflexivity || assumption || rewrite ?length_app, ?length_drop; simpl; lia).
    rewrite write_field_msl by assumption.
    rewrite (write_next "color" 40 6)
      by (reflexivity || assumption || rewrite ?length_app, ?length_drop; simpl; lia).
    rewrite !drop_drop. unfold m'. simpl. rewrite <- !app_assoc. reflexivity.
  - rewrite !read_field_msl by assumption.
    change (assoc "position" (fields apple_arm64 SolidBrushVertex)) with (Some (0, 12)).
    change (assoc "normal" (fields apple_arm64 SolidBrushVertex)) with (Some (12, 12)).
    change (assoc "bitangent" (fields apple_arm64 SolidBrushVertex)) with (Some (24, 12)).
    change (assoc "curveDistance" (fields apple_arm64 SolidBrushVertex))
      with (Some (36, 4)).
    change (assoc "color" (fields apple_arm64 SolidBrushVertex)) with (Some (40, 6)).
    cbn [fmap option_fmap option_map fst snd]. unfold m'.
    split; [|split; [|split; [|split]]]; f_equal.
    + apply (load_middle [] pos); [reflexivity|assumption].
    + apply load_middle; assumption.
    + rewrite (app_assoc pos nrm). apply load_middle; [|assumption].
      rewrite length_app. lia.
    + rewrite (app_assoc pos nrm), (app_assoc (pos ++ nrm) bit).
      apply load_middle; [|assumption]. rewrite !length_app. lia.
    + rewrite (app_assoc pos nrm), (app_assoc (pos ++ nrm) bit),
        (app_assoc ((pos ++ nrm) ++ bit) cd).
      apply load_middle; [|assumption]. rewrite !length_app. lia.
Qed.

Lemma filling_a_vertex_witness :
  msl_scalars apple_arm64 /\
  write_fields apple_arm64 SolidBrushVertex
    [("position", repeat x01 12); ("normal", repeat x02 12);
     ("bitangent", repeat x03 12); ("curveDistance", repeat x04 4);
     ("color", repeat x05 6)] (repeat xff 48) =
  Some (repeat x01 12 ++ repeat x02 12 ++ repeat x03 12 ++ repeat x04 4 ++
        repeat x05 6 ++ [xff; xff])%list.
Proof.
  split; [exact apple_arm64_msl|].
  exact (proj1 (filling_a_vertex apple_arm64 (repeat xff 48) (repeat x01 12)
                  (repeat x02 12) (repeat x03 12) (repeat x04 4) (repeat x05 6)
                  apple_arm64_msl eq_refl eq_refl eq_refl eq_refl eq_refl eq_refl)).
Defined.

(** ** Vertex buffers *)

(** In an array of any struct, writing a member of one element and reading
    it back gives the bytes written, and changes what no other member of
    any element reads. *)
Lemma write_read_element P t n i x o w m v :
  assoc x (fields P t) = Some (o, w) ->
  length m = sizeof P (TArray t n) -> i < n -> length v = w ->
  exists m',
    write_element_field P t i x v m = Some m' /\
    length m' = length m /\
    read_element_field P t i x m' = Some v /\
    forall j y, j <> i \/ y <> x ->
      read_element_field P t j y m' = read_element_field P t j y m.
Proof.
  intros Hx Hm Hi Hv. cbn [sizeof] in Hm.
  pose proof (field_in_object _ _ _ _ _ Hx) as Hin.
  assert (Hfit : element_offset P t i + o + w <= length m)
    by (unfold element_offset; nia).
  exists (store m (element_offset P t i + o) v).
  assert (Hlen : length (store m (element_offset P t i + o) v) = length m)
    by (apply length_store; lia).
  unfold write_element_field, read_element_field. rewrite Hx, Hlen.
  split; [|split; [|split]].
  - rewrite decide_True by lia. reflexivity.
  - reflexivity.
  - rewrite decide_True by lia. subst w. rewrite load_store_same by lia. reflexivity.
  - intros j y Hjy.
    destruct (assoc y (fields P t)) as [[o' w']|] eqn:Hy; [|reflexivity].
    case_decide as Hfit'; [|reflexivity].
    rewrite load_store_other; [reflexivity|lia|].
    pose proof (field_in_object _ _ _ _ _ Hy) as Hin'.
    unfold element_offset in *.
    destruct (Nat.lt_total j i) as [Hlt|[->|Hgt]].
    + left. nia.
    + destruct Hjy as [Hj|Hyx]; [congruence|].
      destruct (fields_disjoint P t x y o w o' w') as [Hd|Hd]; auto; lia.
    + right. nia.
Qed.

(** X9: In a vertex buffer, a buffer of [48 * n] bytes holding [n] vertices,
    writing a member of vertex [i] and reading it back gives the bytes
    written, and no member of any other vertex, nor any other member of the
    same vertex, reads differently afterwards. *)
Theorem vertex_buffer_writes_are_local (P : platform) (n i : nat) (x : string)
  (m v : list byte) (H : msl_scalars P)
  (Hm : length m = 48 * n) (Hi : i < n)
  (Hx : widthof P SolidBrushVertex x = Some (length v)) :
  exists m',
    write_element_field P SolidBrushVertex i x v m = Some m' /\
    length m' = 48 * n /\
    read_element_field P SolidBrushVertex i x m' = Some v /\
    forall j y, j <> i \/ y <> x ->
      read_element_field P SolidBrushVertex j y m' =
      read_element_field P SolidBrushVertex j y m.
Proof.
  assert (Hsize : sizeof P SolidBrushVertex = 48) by layout H.
  unfold widthof in Hx.
  destruct (assoc x (fields P SolidBrushVertex)) as [[o w]|] eqn:Hx'; [|discriminate].
  injection Hx as Hw.
  destruct (write_read_element P SolidBrushVertex n i x o w m v Hx')
    as (m' & Hwr & Hlen & Hrd & Hfr); auto.
  { cbn [sizeof]. fold SolidBrushVertex. rewrite Hsize. lia. }
  exists m'. rewrite Hlen in *. auto.
Qed.

Lemma vertex_buffer_writes_are_local_witness :
  let m := repeat x00 144 in
  let v := [x00; x00; x80; x3f] in
  48 * 3 = 144 /\ 1 < 3 /\
  exists m',
    write_element_field apple_arm64 SolidBrushVertex 1 "curveDistance" v m = Some m' /\
    length m' = 48 * 3 /\
    read_element_field apple_arm64 SolidBrushVertex 1 "curveDistance" m' = Some v /\
    forall j y, j <> 1 \/ y <> "curveDistance" ->
      read_element_field apple_arm64 SolidBrushVertex j y m' =
      read_element_field apple_arm64 SolidBrushVertex j y m.
Proof.
  intros m v. split; [reflexivity|]. split; [lia|].
  apply (vertex_buffer_writes_are_local apple_arm64 3 1 "curveDistance" m v
           apple_arm64_msl); [reflexivity|lia|reflexivity].
Defined.

(** ** What the directive does for [materialProperties] *)

Lemma materialProperties_fields P pk t a :
  msl_scalars P -> sizeof P t = 8 -> alignof P t = a ->
  fields P (TStruct pk
    [("position", packed_float3); ("normal", packed_float3);
     ("bitangent", packed_float3); ("materialProperties", t);
     ("curveDistance", TScalar Float32); ("color", packed_half3)]) =
  (let o1 := align_up 0 (cap pk 4) in
   let o2 := align_up (o1 + 12) (cap pk 4) in
   let o3 := align_up (o2 + 12) (cap pk 4) in
   let o4 := align_up (o3 + 12) (cap pk a) in
   let o5 := align_up (o4 + 8) (cap pk 4) in
   let o6 := align_up (o5 + 4) (cap pk 2) in
   [("position", (o1, 12)); ("normal", (o2, 12)); ("bitangent", (o3, 12));
    ("materialProperties", (o4, 8)); ("curveDistance", (o5, 4)); ("color", (o6, 6))]).
Proof.
  intros H Ht Ha.
  assert (Hf3 : sizeof P packed_float3 = 12) by layout H.
  assert (Af3 : alignof P packed_float3 = 4) by layout H.
  assert (Hf : sizeof P (TScalar Float32) = 4) by layout H.
  assert (Af : alignof P (TScalar Float32) = 4) by layout H.
  assert (Hh3 : sizeof P packed_half3 = 6) by layout H.
  assert (Ah3 : alignof P packed_half3 = 2) by layout H.
  cbn [fields place].
  rewrite Hf3, Af3, Hf, Af, Hh3, Ah3, Ht, Ha. reflexivity.
Qed.

(** X10: If [materialProperties] is put back with a type of 8 bytes that asks for
    8-byte alignment, as a vector of two floats does, the directive is what
    keeps the struct at 56 bytes: without it the member moves from offset 36
    to 40 and the struct grows to 64.  The price is that under the directive
    the member lies 4 bytes off its own alignment, in every element of an
    array of vertices. *)
Theorem materialProperties_needs_the_packing (P : platform) (t : ctype) (i : nat)
  (H : msl_scalars P) (H8 : sizeof P t = 8) (A8 : alignof P t = 8) :
  offsetof P (with_materialProperties t) "materialProperties" = Some 36 /\
  sizeof P (with_materialProperties t) = 56 /\
  (element_offset P (with_materialProperties t) i + 36) mod alignof P t = 4 /\
  offsetof P (with_materialProperties_no_pack t) "materialProperties" = Some 40 /\
  sizeof P (with_materialProperties_no_pack t) = 64 /\
  alignof P (with_materialProperties_no_pack t) = 8.
Proof.
  assert (Af3 : alignof P packed_float3 = 4) by layout H.
  assert (Af : alignof P (TScalar Float32) = 4) by layout H.
  assert (Ah3 : alignof P packed_half3 = 2) by layout H.
  assert (Hf3 : sizeof P packed_float3 = 12) by layout H.
  assert (Hf : sizeof P (TScalar Float32) = 4) by layout H.
  assert (Hh3 : sizeof P packed_half3 = 6) by layout H.
  assert (Hsize : sizeof P (with_materialProperties t) = 56).
  { unfold with_materialProperties. rewrite sizeof_struct.
    cbn [alignof members_align members_end cap].
    change (scalar_align P Float32) with (alignof P (TScalar Float32)).
    rewrite Hf3, Af3, Hf, Af, Hh3, Ah3, H8, A8. reflexivity. }
  split; [|split; [assumption|split; [|split; [|split]]]].
  - unfold offsetof, with_materialProperties.
    rewrite (materialProperties_fields P (Some 4) t 8) by assumption. reflexivity.
  - unfold element_offset. rewrite Hsize, A8.
    replace (i * 56 + 36) with (4 + (i * 7 + 4) * 8) by lia.
    rewrite Nat.Div0.mod_add. reflexivity.
  - unfold offsetof, with_materialProperties_no_pack.
    rewrite (materialProperties_fields P None t 8) by assumption. reflexivity.
  - unfold with_materialProperties_no_pack. rewrite sizeof_struct.
    cbn [alignof members_align members_end cap].
    change (scalar_align P Float32) with (alignof P (TScalar Float32)).
    rewrite Hf3, Af3, Hf, Af, Hh3, Ah3, H8, A8. reflexivity.
  - unfold with_materialProperties_no_pack.
    cbn [alignof members_align cap].
    change (scalar_align P Float32) with (alignof P (TScalar Float32)).
    rewrite ?Af3, ?Af, ?Ah3, ?A8. reflexivity.
Qed.

Lemma materialProperties_needs_the_packing_witness :
  msl_scalars apple_arm64 /\
  sizeof apple_arm64 packed_float2 = 8 /\ alignof apple_arm64 packed_float2 = 8 /\
  sizeof apple_arm64 (with_materialProperties_no_pack packed_float2) = 64.
Proof.
  split; [exact apple_arm64_msl|]. split; [reflexivity|]. split; [reflexivity|].
  exact (proj1 (proj2 (proj2 (proj2 (proj2
    (materialProperties_needs_the_packing apple_arm64 packed_float2 0
       apple_arm64_msl eq_refl eq_refl)))))).
Defined.
